(** * The multiple-comparisons notebook, embedded in Rocq

  The notebook [exercise4-02-03-2020/multiple_comparisons.ipynb] fills a
  data frame with [N] random series of length [T], runs a Spearman test on
  every pair of columns and collects the pairs whose p-value is below a
  cutoff.  Its cells are embedded here as functions on the state of the
  Python kernel that runs them:

  - Python [int] is [Z], Python [float] is the binary64 [float] of the
    kernel, a pandas [Series] is a list of floats, a [DataFrame] is the
    list of its named columns in insertion order;
  - the cells run in a state-and-exception monad over the kernel state
    (the names the cells assign, numpy's global generator, and the trace
    of observable effects); an exception keeps the state reached when it
    was raised, as a notebook does;
  - the two library calls the notebook consumes, one draw of numpy's
    normal generator and [scipy.stats.spearmanr], are parameters of the
    development: nothing is assumed about the values they return. *)

From Stdlib Require Import ZArith List Bool Lia String Ascii Sorted.
From Stdlib Require Import Floats DecimalString DecimalZ DecimalPos DecimalFacts.
Import ListNotations.

Set Warnings "-inexact-float".
Local Open Scope Z_scope.

(** ** Python values and control *)

Module Py.

(** The exceptions the modelled library calls can raise. *)
Inductive exn : Type :=
| ValueError   (* numpy: negative dimensions are not allowed *)
| IndexError   (* pandas: single positional indexer is out-of-bounds *).

(** What running a piece of code on a state gives: a value and the new
    state, or an exception together with the state reached so far. *)
Inductive outcome (S A : Type) : Type :=
| Ok (a : A) (s : S)
| Raise (e : exn) (s : S).
Arguments Ok {S A} a s.
Arguments Raise {S A} e s.

Definition M (S A : Type) : Type := S -> outcome S A.

Definition ret {S A} (a : A) : M S A := fun s => Ok a s.

Definition bind {S A B} (m : M S A) (k : A -> M S B) : M S B :=
  fun s => match m s with
           | Ok a s' => k a s'
           | Raise e s' => Raise e s'
           end.

Definition get {S} : M S S := fun s => Ok s s.
Definition modify {S} (f : S -> S) : M S unit := fun s => Ok tt (f s).

(** The state an outcome ends in, normal or not. *)
Definition final {S A} (o : outcome S A) : S :=
  match o with Ok _ s => s | Raise _ s => s end.

(** [for x in xs: body]. *)
Fixpoint for_ {S X} (xs : list X) (body : X -> M S unit) : M S unit :=
  match xs with
  | [] => ret tt
  | x :: xs' => bind (body x) (fun _ => for_ xs' body)
  end.

(** [range(lo, hi)]: lo, lo+1, ..., hi-1; empty when hi <= lo. *)
Definition range (lo hi : Z) : list Z :=
  map (fun k => lo + Z.of_nat k) (seq 0 (Z.to_nat (hi - lo))).

(** [float(z)] for a Python int: the nearest binary64 value. *)
Definition float_of_int (z : Z) : float :=
  SF2Prim (binary_normalize prec emax z 0 false).

(** [a / b] on two Python ints, as the quotient of the two converted
    operands.  This is Python's value, the exact quotient rounded once,
    when both operands convert exactly (magnitudes up to 2^53), and for a
    divisor that is a power of two (the notebook divides by 2) as long as
    the dividend is within the range of binary64 (below 2^1024).  Beyond
    that range Python rounds the exact quotient or raises OverflowError,
    and for [b = 0] it raises ZeroDivisionError; the model does not follow
    it there. *)
Definition int_truediv (a b : Z) : float :=
  (float_of_int a / float_of_int b)%float.

(** ['%s' % z] for a Python int: its decimal numeral, ["-"] first when
    negative. *)
Definition str_of_int (z : Z) : string :=
  NilZero.string_of_int (Z.to_int z).

(** Two outcomes end the same way, in states related by [R]. *)
Definition same_outcome {S A} (R : S -> S -> Prop) (o1 o2 : outcome S A) : Prop :=
  match o1, o2 with
  | Ok _ s1, Ok _ s2 => R s1 s2
  | Raise e1 s1, Raise e2 s2 => e1 = e2 /\ R s1 s2
  | _, _ => False
  end.

End Py.
Import Py.

Declare Scope py_scope.
Delimit Scope py_scope with py.
Notation "x <- m ;; k" := (bind m (fun x => k))
(at level 61, m at next level, right associativity) : py_scope.
Notation "m ;;; k" := (bind m (fun _ => k))
(at level 61, right associativity) : py_scope.

(** ** pandas: series and data frames *)

Definition Series : Type := list float.

(** The columns of a frame, in insertion order, each under its label. *)
Definition DataFrame : Type := list (string * Series).

(** [pd.DataFrame()]. *)
Definition empty_frame : DataFrame := [].

(** [df[name] = X]: the column labelled [name] is replaced in place when the
  frame has one, and appended after the last column otherwise.  (Every
  series the notebook stores has the frame's own index [0..T-1], so no
  realignment takes place.) *)
Fixpoint setitem (name : string) (X : Series) (d : DataFrame) : DataFrame :=
match d with
| [] => [(name, X)]
| (k, Y) :: d' =>
    if String.eqb k name then (k, X) :: d' else (k, Y) :: setitem name X d'
end.

(** ['X%s' % i], the label of the i-th series. *)
Definition label (i : Z) : string := ("X" ++ str_of_int i)%string.

Definition ncols (d : DataFrame) : Z := Z.of_nat (List.length d).

(** [df.iloc[:, i]]: the column at position [i], counted from the end when
  [i] is negative; [None] stands for pandas' IndexError. *)
Definition iloc_col (d : DataFrame) (i : Z) : option Series :=
let k := if i <? 0 then ncols d + i else i in
if (0 <=? k) && (k <? ncols d)
then option_map snd (nth_error d (Z.to_nat k))
else None.

(** ** The kernel state *)

(** What a cell can do that is visible outside the names it assigns: call
  the statistical primitive, or write a message ([print], [logging],
  [warnings.warn]). *)
Inductive event : Type :=
| Spearmanr (x y : Series)
| Log (msg : string).

Definition is_test (e : event) : bool :=
match e with Spearmanr _ _ => true | Log _ => false end.

Definition is_log (e : event) : bool :=
match e with Log _ => true | Spearmanr _ _ => false end.

Section Notebook.

(** The hidden state of numpy's global generator, and one draw of
    [np.random.normal(0, 1)] from it. *)
Variable RandomState : Type.
Variable gauss : RandomState -> float * RandomState.

(** [scipy.stats.spearmanr(x, y)] on two one-dimensional series of equal
    length: the pair (correlation, pvalue) of the two-sided test.  On
    degenerate input scipy answers with NaN rather than an exception. *)
Variable spearmanr : Series -> Series -> float * float.

Record Kernel : Type := mkKernel {
  N : Z;
  T : Z;
  df : DataFrame;
  cutoff : float;
  significant_pairs : list (Z * Z);
  np_random : RandomState;
  trace : list event
}.

Definition set_N (v : Z) (s : Kernel) : Kernel :=
  mkKernel v (T s) (df s) (cutoff s) (significant_pairs s) (np_random s) (trace s).
Definition set_T (v : Z) (s : Kernel) : Kernel :=
  mkKernel (N s) v (df s) (cutoff s) (significant_pairs s) (np_random s) (trace s).
Definition set_df (v : DataFrame) (s : Kernel) : Kernel :=
  mkKernel (N s) (T s) v (cutoff s) (significant_pairs s) (np_random s) (trace s).
Definition set_cutoff (v : float) (s : Kernel) : Kernel :=
  mkKernel (N s) (T s) (df s) v (significant_pairs s) (np_random s) (trace s).
Definition set_significant_pairs (v : list (Z * Z)) (s : Kernel) : Kernel :=
  mkKernel (N s) (T s) (df s) (cutoff s) v (np_random s) (trace s).
Definition set_np_random (v : RandomState) (s : Kernel) : Kernel :=
  mkKernel (N s) (T s) (df s) (cutoff s) (significant_pairs s) v (trace s).
Definition set_trace (v : list event) (s : Kernel) : Kernel :=
  mkKernel (N s) (T s) (df s) (cutoff s) (significant_pairs s) (np_random s) v.

Definition Cell (A : Type) : Type := M Kernel A.

(** *** Library calls, as the cells see them *)

(** [n] successive draws from the generator. *)
Fixpoint draws (n : nat) (g : RandomState) : Series * RandomState :=
  match n with
  | O => ([], g)
  | S n' =>
      let (x, g1) := gauss g in
      let (xs, g2) := draws n' g1 in
      (x :: xs, g2)
  end.

(** [np.random.normal(0, 1, size)]: [size] draws from the global
    generator; a negative size is numpy's ValueError, raised before any
    draw. *)
Definition np_random_normal (size : Z) : Cell Series :=
  fun s =>
    if size <? 0 then Raise ValueError s
    else let (xs, g) := draws (Z.to_nat size) (np_random s) in
         Ok xs (set_np_random g s).

(** [df.iloc[:, i]] on the frame the name [df] is bound to. *)
Definition df_iloc (i : Z) : Cell Series :=
  fun s => match iloc_col (df s) i with
           | Some X => Ok X s
           | None => Raise IndexError s
           end.

(** [stats.spearmanr(x, y)]: the call is recorded in the trace. *)
Definition stats_spearmanr (x y : Series) : Cell (float * float) :=
  fun s => Ok (spearmanr x y) (set_trace (trace s ++ [Spearmanr x y]) s).

(** *** Cell [4]: the series set *)

(** The body of [for i in range(N)]:
<<
  X = np.random.normal(0, 1, T)
  X = pd.Series(X)
  name = 'X%s' % i
  df[name] = X
>> *)
Definition generate_body (i : Z) : Cell unit :=
  (s <- get ;;
   X <- np_random_normal (T s) ;;
   let name := label i in
   modify (fun s' => set_df (setitem name X (df s')) s'))%py.

Definition generate_loop : Cell unit :=
  (s <- get ;; for_ (range 0 (N s)) generate_body)%py.

(** The cell with its two literals [N = 20] and [T = 100] as arguments. *)
Definition generate (n t : Z) : Cell unit :=
  (modify (set_df empty_frame) ;;;
   modify (set_N n) ;;;
   modify (set_T t) ;;;
   generate_loop)%py.

Definition cell_generate : Cell unit := generate 20 100.

(** *** Cell [7]: the pairwise scan *)

(** The body of the inner loop:
<<
  Xi = df.iloc[:, i]
  Xj = df.iloc[:, j]
  results = stats.spearmanr(Xi, Xj)
  pvalue = results[1]
  if pvalue < cutoff:
      significant_pairs.append((i, j))
>> *)
Definition scan_body (i j : Z) : Cell unit :=
  (Xi <- df_iloc i ;;
   Xj <- df_iloc j ;;
   results <- stats_spearmanr Xi Xj ;;
   let pvalue := snd results in
   s <- get ;;
   if (pvalue <? cutoff s)%float
   then modify (fun s' =>
          set_significant_pairs (significant_pairs s' ++ [(i, j)]) s')
   else ret tt)%py.

(** [for i in range(N): for j in range(i+1, N): ...]; each [range] reads
    [N] when its loop starts. *)
Definition scan_loop : Cell unit :=
  (s <- get ;;
   for_ (range 0 (N s)) (fun i =>
     s' <- get ;;
     for_ (range (i + 1) (N s')) (fun j => scan_body i j)))%py.

(** The cell with its literal [cutoff = 0.05] as argument. *)
Definition scan (c : float) : Cell unit :=
  (modify (set_cutoff c) ;;;
   modify (set_significant_pairs []) ;;;
   scan_loop)%py.

Definition cell_scan : Cell unit := scan 0.05%float.

(** *** Cells [9] and [11]: the expected and the observed count *)

(** [(N * (N-1) / 2) * c], with [c] the cell's literal [0.05]. *)
Definition expected_count (n : Z) (c : float) : float :=
  (int_truediv (n * (n - 1)) 2 * c)%float.

Definition cell_expected (s : Kernel) : float :=
  expected_count (N s) 0.05%float.

(** [len(significant_pairs)]. *)
Definition cell_count (s : Kernel) : Z :=
  Z.of_nat (List.length (significant_pairs s)).

(** *** One run of the experiment: cell [4], then cell [7] *)

Definition experiment (n t : Z) (c : float) : Cell unit :=
  (generate n t ;;; scan c)%py.

Definition notebook : Cell unit := (cell_generate ;;; cell_scan)%py.

End Notebook.

Arguments N {RandomState} k.
Arguments T {RandomState} k.
Arguments df {RandomState} k.
Arguments cutoff {RandomState} k.
Arguments significant_pairs {RandomState} k.
Arguments np_random {RandomState} k.
Arguments trace {RandomState} k.
Arguments mkKernel {RandomState} N T df cutoff significant_pairs np_random trace.
Arguments set_N {RandomState} v s.
Arguments set_T {RandomState} v s.
Arguments set_df {RandomState} v s.
Arguments set_cutoff {RandomState} v s.
Arguments set_significant_pairs {RandomState} v s.
Arguments set_np_random {RandomState} v s.
Arguments set_trace {RandomState} v s.
Arguments draws {RandomState} gauss n g.
Arguments np_random_normal {RandomState} gauss size _.
Arguments df_iloc {RandomState} i _.
Arguments stats_spearmanr {RandomState} spearmanr x y _.
Arguments generate_body {RandomState} gauss i _.
Arguments generate_loop {RandomState} gauss _.
Arguments generate {RandomState} gauss n t _.
Arguments cell_generate {RandomState} gauss _.
Arguments scan_body {RandomState} spearmanr i j _.
Arguments scan_loop {RandomState} spearmanr _.
Arguments scan {RandomState} spearmanr c _.
Arguments cell_scan {RandomState} spearmanr _.
Arguments cell_expected {RandomState} s.
Arguments cell_count {RandomState} s.
Arguments experiment {RandomState} gauss spearmanr n t c _.
Arguments notebook {RandomState} gauss spearmanr _.

(** ** What the claims speak about *)

(** The pairs the two loops go through, in the order they go through them. *)
Definition pairs (n : Z) : list (Z * Z) :=
  flat_map (fun i => map (pair i) (range (i + 1) n)) (range 0 n).

(** The p-value of the test of column [i] against column [j] of a frame. *)
Definition pvalue_of (spearmanr : Series -> Series -> float * float)
    (d : DataFrame) (p : Z * Z) : option float :=
  match iloc_col d (fst p), iloc_col d (snd p) with
  | Some Xi, Some Xj => Some (snd (spearmanr Xi Xj))
  | _, _ => None
  end.

(** Whether that p-value is strictly below [c]. *)
Definition below (spearmanr : Series -> Series -> float * float)
    (d : DataFrame) (c : float) (p : Z * Z) : bool :=
  match pvalue_of spearmanr d p with
  | Some pv => (pv <? c)%float
  | None => false
  end.

(** The number of index pairs (i, j) of [0..n-1] with i < j whose p-value is
    strictly below [c], counted over the whole square of indices. *)
Definition count_below (spearmanr : Series -> Series -> float * float)
    (d : DataFrame) (c : float) (n : Z) : Z :=
  Z.of_nat (List.length
    (filter (fun p => (fst p <? snd p) && below spearmanr d c p)
            (list_prod (range 0 n) (range 0 n)))).

(** The number of tests a trace records, and the messages it records. *)
Definition tests_run (tr : list event) : Z :=
  Z.of_nat (List.length (filter is_test tr)).

Definition logged (tr : list event) : list event := filter is_log tr.

(** The lexicographic order on index pairs. *)
Definition lex_lt (p q : Z * Z) : Prop :=
  fst p < fst q \/ (fst p = fst q /\ snd p < snd q).

(** The test event of a pair of columns of a frame (none when a column is
    missing). *)
Definition test_of (d : DataFrame) (p : Z * Z) : list event :=
  match iloc_col d (fst p), iloc_col d (snd p) with
  | Some Xi, Some Xj => [Spearmanr Xi Xj]
  | _, _ => []
  end.

(** The state the scan reaches from [s] once it has gone through the pairs
    [l]: their tests are in the trace, and those below the cutoff are
    appended to [significant_pairs]. *)
Definition scanned {RandomState} (spearmanr : Series -> Series -> float * float)
    (l : list (Z * Z)) (s : Kernel RandomState) : Kernel RandomState :=
  set_significant_pairs
    (significant_pairs s ++ filter (below spearmanr (df s) (cutoff s)) l)
    (set_trace (trace s ++ flat_map (test_of (df s)) l) s).

(** The state in which the two loops of the scan cell start. *)
Definition scan_start {RandomState} (c : float) (s : Kernel RandomState)
    : Kernel RandomState :=
  set_significant_pairs [] (set_cutoff c s).

(** Both columns of a pair exist in the frame. *)
Definition present (d : DataFrame) (p : Z * Z) : bool :=
  match iloc_col d (fst p), iloc_col d (snd p) with
  | Some _, Some _ => true
  | _, _ => false
  end.

(** The loop body run over an explicit list of pairs. *)
Definition run_pairs {RandomState} (spearmanr : Series -> Series -> float * float)
    (l : list (Z * Z)) : Cell RandomState unit :=
  for_ l (fun p => scan_body spearmanr (fst p) (snd p)).

(** Two kernels hold the same series data: the same [N] and [T], the same
    frame, and the same generator state. *)
Definition same_data {RandomState} (s1 s2 : Kernel RandomState) : Prop :=
  N s1 = N s2 /\ T s1 = T s2 /\ df s1 = df s2 /\ np_random s1 = np_random s2.

(** They hold the same data and the same scan results. *)
Definition same_results {RandomState} (s1 s2 : Kernel RandomState) : Prop :=
  same_data s1 s2 /\ cutoff s1 = cutoff s2 /\
  significant_pairs s1 = significant_pairs s2.

(** What the generation leaves alone. *)
Definition same_scan_state {RandomState} (s s' : Kernel RandomState) : Prop :=
  N s' = N s /\ T s' = T s /\ cutoff s' = cutoff s /\
  significant_pairs s' = significant_pairs s /\ trace s' = trace s.

(** The scanner as the specification words it, with its correction mode:
    the pairs i < j in loop order whose p-value is below the raw cutoff [c],
    or below [c / K] with K = N(N-1)/2 when the Bonferroni correction is on. *)
Definition spec_scanner (spearmanr : Series -> Series -> float * float)
    (bonferroni : bool) (d : DataFrame) (c : float) (n : Z) : list (Z * Z) :=
  let K := int_truediv (n * (n - 1)) 2 in
  let c' := if bonferroni then (c / K)%float else c in
  filter (below spearmanr d c') (pairs n).

(** An outcome that rejects at entry: an exception, and the state still as
    it was before the run (no series generated, no test run). *)
Definition rejected_at_entry {S A} (o : outcome S A) (s : S) : Prop :=
  match o with
  | Raise _ s' => s' = s
  | Ok _ _ => False
  end.


(** The configurations the specification calls invalid. *)
Definition invalid_config (n t : Z) (c : float) : Prop :=
  n < 2 \/ t < 2 \/ (0 <? c)%float = false \/ (c <? 1)%float = false.

(** An invalid configuration is rejected at entry. *)
Definition rejects_invalid {RandomState}
    (gauss : RandomState -> float * RandomState)
    (spearmanr : Series -> Series -> float * float)
    (n t : Z) (c : float) (s : Kernel RandomState) : Prop :=
  invalid_config n t c ->
  rejected_at_entry (experiment gauss spearmanr n t c s) s.

(** ** Stand-ins for the two libraries, to run the cells on *)

Module Sample.

(** A generator that counts: its state is the next value it hands out. *)
Definition gauss (g : Z) : float * Z := (float_of_int g, g + 1).

(** A primitive with prescribed answers, read off the first entries [a] of
    [x] and [b] of [y]: NaN for the pair that starts with 0 and 1, and the
    p-value (b - a) / 100 otherwise (0.02 from 0 and 2, 0.01 from 1 and 2). *)
Definition spearmanr (x y : Series) : float * float :=
  match x, y with
  | a :: _, b :: _ =>
      if ((a =? 0) && (b =? 1))%float then (nan, nan)
      else (0%float, ((b - a) / 100)%float)
  | _, _ => (nan, nan)
  end.

(** A kernel that has run nothing yet. *)
Definition fresh : Kernel Z := mkKernel 0 0 [] 0%float [] 0 [].

(** Three series of length one, [0.], [1.] and [2.], under the notebook's
    labels, and a kernel that holds them with the notebook's cutoff. *)
Definition three : DataFrame :=
  [("X0", [0%float]); ("X1", [1%float]); ("X2", [2%float])]%string.

Definition loaded : Kernel Z := mkKernel 3 1 three 0.05%float [] 3 [].

End Sample.

(** Case analysis on every integer comparison in sight. *)
Ltac cmp_cases :=
  repeat match goal with
  | H : context [Z.compare ?a ?b] |- _ => destruct (Z.compare_spec a b)
  | |- context [Z.compare ?a ?b] => destruct (Z.compare_spec a b)
  | H : context [Pos.compare ?a ?b] |- _ => destruct (Pos.compare_spec a b)
  | |- context [Pos.compare ?a ?b] => destruct (Pos.compare_spec a b)
  end.

(** * Facts *)

(** ** Ranges and the pairs of the two loops *)

Lemma range_nil (lo hi : Z) : hi <= lo -> range lo hi = [].
Proof.
  intros H. unfold range.
  replace (Z.to_nat (hi - lo)) with 0%nat by lia. reflexivity.
Qed.

Lemma range_cons (lo hi : Z) : lo < hi -> range lo hi = lo :: range (lo + 1) hi.
Proof.
  intros H. unfold range.
  replace (Z.to_nat (hi - lo)) with (S (Z.to_nat (hi - (lo + 1)))) by lia.
  cbn [seq map]. f_equal; [lia|].
  rewrite <- seq_shift, map_map.
  apply map_ext. intros k. lia.
Qed.

Lemma In_range (lo hi k : Z) : In k (range lo hi) <-> lo <= k < hi.
Proof.
  unfold range. rewrite in_map_iff. split.
  - intros (m & <- & Hm). apply in_seq in Hm. lia.
  - intros Hk. exists (Z.to_nat (k - lo)). split; [lia|].
    apply in_seq. lia.
Qed.

Lemma length_range (lo hi : Z) : List.length (range lo hi) = Z.to_nat (hi - lo).
Proof. unfold range. now rewrite length_map, length_seq. Qed.

Lemma range_app (lo mid hi : Z) :
  lo <= mid <= hi -> range lo hi = range lo mid ++ range mid hi.
Proof.
  remember (Z.to_nat (mid - lo)) as k eqn:Hk.
  revert lo Hk. induction k as [|k IH]; intros lo Hk H.
  - replace mid with lo by lia. now rewrite (range_nil lo lo) by lia.
  - rewrite (range_cons lo hi), (range_cons lo mid) by lia.
    cbn [app]. f_equal. apply IH; lia.
Qed.

Lemma range_sorted (lo hi : Z) : StronglySorted Z.lt (range lo hi).
Proof.
  remember (Z.to_nat (hi - lo)) as k eqn:Hk.
  revert lo Hk. induction k as [|k IH]; intros lo Hk.
  - rewrite range_nil by lia. constructor.
  - rewrite range_cons by lia. constructor.
    + apply IH. lia.
    + apply Forall_forall. intros x Hx. apply In_range in Hx. lia.
Qed.

Lemma In_pairs (n i j : Z) : In (i, j) (pairs n) <-> 0 <= i < j /\ j < n.
Proof.
  unfold pairs. rewrite in_flat_map. split.
  - intros (i' & Hi & Hj). apply In_range in Hi.
    apply in_map_iff in Hj. destruct Hj as (j' & [= <- <-] & Hj).
    apply In_range in Hj. lia.
  - intros H. exists i. split; [apply In_range; lia|].
    apply in_map_iff. exists j. split; [reflexivity|apply In_range; lia].
Qed.

Lemma ssorted_app {A} (R : A -> A -> Prop) (l1 l2 : list A) :
  StronglySorted R l1 -> StronglySorted R l2 ->
  (forall x y, In x l1 -> In y l2 -> R x y) ->
  StronglySorted R (l1 ++ l2).
Proof.
  induction 1 as [|a l1 Hl1 IH Ha]; intros H2 Hx; cbn [app]; [assumption|].
  constructor.
  - apply IH; [assumption|]. intros x y Hi Hj. apply Hx; [now right|assumption].
  - apply Forall_app. split; [assumption|].
    apply Forall_forall. intros y Hy. apply Hx; [now left|assumption].
Qed.

Lemma ssorted_filter {A} (R : A -> A -> Prop) (f : A -> bool) (l : list A) :
  StronglySorted R l -> StronglySorted R (filter f l).
Proof.
  induction 1 as [|a l Hl IH Ha]; cbn [filter]; [constructor|].
  destruct (f a); [|assumption].
  constructor; [assumption|].
  apply Forall_forall. intros x Hx. apply filter_In in Hx.
  rewrite Forall_forall in Ha. now apply Ha.
Qed.

Lemma ssorted_prefix {A} (R : A -> A -> Prop) (l1 l2 : list A) :
  StronglySorted R (l1 ++ l2) -> StronglySorted R l1.
Proof.
  induction l1 as [|a l1 IH]; cbn [app]; intros H; [constructor|].
  apply StronglySorted_inv in H. destruct H as [H Ha].
  constructor; [now apply IH|].
  apply Forall_app in Ha. tauto.
Qed.

Lemma row_sorted (i n : Z) : StronglySorted lex_lt (map (pair i) (range (i + 1) n)).
Proof.
  generalize (range_sorted (i + 1) n).
  induction 1 as [|j l Hl IH Hj]; cbn [map]; constructor; [assumption|].
  apply Forall_forall. intros q Hq. apply in_map_iff in Hq.
  destruct Hq as (j' & <- & Hj'). rewrite Forall_forall in Hj.
  right. cbn. split; [reflexivity|now apply Hj].
Qed.

Lemma pairs_sorted (n : Z) : StronglySorted lex_lt (pairs n).
Proof.
  unfold pairs. generalize (range_sorted 0 n).
  induction 1 as [|i l Hl IH Hi]; cbn [flat_map]; [constructor|].
  apply ssorted_app; [apply row_sorted|assumption|].
  intros p q Hp Hq. apply in_map_iff in Hp. destruct Hp as (j & <- & _).
  apply in_flat_map in Hq. destruct Hq as (i' & Hi' & Hq).
  apply in_map_iff in Hq. destruct Hq as (j' & <- & _).
  rewrite Forall_forall in Hi. left. cbn. now apply Hi.
Qed.

Lemma rows_length (n : Z) (k : nat) (lo : Z) :
  Z.to_nat (n - lo) = k -> lo <= n ->
  2 * Z.of_nat (List.length
        (flat_map (fun i => map (pair i) (range (i + 1) n)) (range lo n)))
  = (n - lo) * (n - lo - 1).
Proof.
  revert lo. induction k as [|k IH]; intros lo Hk Hlo.
  - rewrite range_nil by lia. cbn. nia.
  - rewrite range_cons by lia. cbn [flat_map].
    rewrite length_app, length_map, length_range, Nat2Z.inj_add.
    specialize (IH (lo + 1) ltac:(lia) ltac:(lia)). nia.
Qed.

Lemma pairs_length (n : Z) :
  0 <= n -> Z.of_nat (List.length (pairs n)) = n * (n - 1) / 2.
Proof.
  intros Hn. pose proof (rows_length n (Z.to_nat n) 0 ltac:(f_equal; lia) Hn) as H.
  fold (pairs n) in H. rewrite Z.sub_0_r in H. rewrite <- H.
  rewrite Z.mul_comm, Z.div_mul; lia.
Qed.

Lemma pairs_nil (n : Z) : n <= 1 -> pairs n = [].
Proof.
  intros H. destruct (pairs n) as [|[i j] l] eqn:E; [reflexivity|].
  assert (Hin : In (i, j) (pairs n)) by (rewrite E; now left).
  apply In_pairs in Hin. lia.
Qed.

Lemma pairs_two : pairs 2 = [(0, 1)].
Proof. reflexivity. Qed.

Lemma filter_flat_map {A B} (f : B -> bool) (g : A -> list B) (l : list A) :
  filter f (flat_map g l) = flat_map (fun x => filter f (g x)) l.
Proof.
  induction l as [|a l IH]; cbn [flat_map]; [reflexivity|].
  now rewrite filter_app, IH.
Qed.

Lemma flat_map_ext_on {A B} (g h : A -> list B) (l : list A) :
  (forall x, In x l -> g x = h x) -> flat_map g l = flat_map h l.
Proof.
  induction l as [|a l IH]; intros H; cbn [flat_map]; [reflexivity|].
  rewrite (H a) by now left. f_equal. apply IH. intros x Hx. apply H. now right.
Qed.

Lemma filter_none {A} (f : A -> bool) (l : list A) :
  (forall x, In x l -> f x = false) -> filter f l = [].
Proof.
  induction l as [|a l IH]; intros H; cbn [filter]; [reflexivity|].
  rewrite (H a) by now left. apply IH. intros x Hx. apply H. now right.
Qed.

(** Filtering the whole square of indices for i < j gives the pairs of the
    two loops, in their order. *)
Lemma square_filter (f : Z * Z -> bool) (n : Z) :
  filter (fun p => (fst p <? snd p) && f p) (list_prod (range 0 n) (range 0 n))
  = filter f (pairs n).
Proof.
  unfold pairs. rewrite list_prod_as_flat_map, !filter_flat_map.
  apply flat_map_ext_on. intros i Hi. apply In_range in Hi.
  rewrite (range_app 0 (i + 1) n) by lia.
  rewrite map_app, filter_app, filter_none.
  - cbn [app]. apply filter_ext_in. intros p Hp.
    apply in_map_iff in Hp. destruct Hp as (j & <- & Hj). apply In_range in Hj.
    cbn [fst snd]. replace (i <? j) with true by (symmetry; apply Z.ltb_lt; lia).
    reflexivity.
  - intros p Hp. apply in_map_iff in Hp. destruct Hp as (j & <- & Hj).
    apply In_range in Hj. cbn [fst snd].
    replace (i <? j) with false by (symmetry; apply Z.ltb_ge; lia).
    reflexivity.
Qed.

(** ** Floating-point comparison *)


(** Two floats that compare equal are not strictly ordered. *)
Lemma eqb_not_below (p c : float) : (p =? c)%float = true -> (p <? c)%float = false.
Proof.
  rewrite eqb_spec, ltb_spec. unfold SFeqb, SFltb.
  destruct (SFcompare (Prim2SF p) (Prim2SF c)) as [[| |]|]; congruence.
Qed.

Lemma self_not_below (c : float) : (c <? c)%float = false.
Proof.
  rewrite ltb_spec. unfold SFltb.
  destruct (Prim2SF c) as [sc| sc| |sc mc ec]; cbn [SFcompare]; try reflexivity.
  - destruct sc; reflexivity.
  - destruct sc; rewrite Z.compare_refl, Pos.compare_cont_refl; reflexivity.
Qed.

(** ** Loops *)

Lemma for_app {S X} (l1 l2 : list X) (body : X -> M S unit) (s : S) :
  for_ (l1 ++ l2) body s = bind (for_ l1 body) (fun _ => for_ l2 body) s.
Proof.
  revert s. induction l1 as [|x l1 IH]; intros s; cbn [app for_].
  - reflexivity.
  - unfold bind in *. destruct (body x s) as [[] s1|e s1]; [apply IH|reflexivity].
Qed.

Lemma for_map {S X Y} (g : X -> Y) (l : list X) (body : Y -> M S unit) (s : S) :
  for_ (map g l) body s = for_ l (fun x => body (g x)) s.
Proof.
  revert s. induction l as [|x l IH]; intros s; cbn [map for_]; [reflexivity|].
  unfold bind. destruct (body (g x) s) as [[] s1|e s1]; [apply IH|reflexivity].
Qed.

(** ** The scan, pair by pair *)

Section ScanFacts.

Context {RandomState : Type}.
Variable spearmanr : Series -> Series -> float * float.

Lemma scanned_nil (s : Kernel RandomState) : scanned spearmanr [] s = s.
Proof. destruct s. unfold scanned. cbn. now rewrite !List.app_nil_r. Qed.

Lemma scanned_app (l1 l2 : list (Z * Z)) (s : Kernel RandomState) :
  scanned spearmanr (l1 ++ l2) s = scanned spearmanr l2 (scanned spearmanr l1 s).
Proof.
  destruct s. unfold scanned. cbn.
  now rewrite filter_app, flat_map_app, !List.app_assoc.
Qed.

Lemma scanned_frame (l : list (Z * Z)) (s : Kernel RandomState) :
  N (scanned spearmanr l s) = N s /\ T (scanned spearmanr l s) = T s /\
  df (scanned spearmanr l s) = df s /\ cutoff (scanned spearmanr l s) = cutoff s /\
  np_random (scanned spearmanr l s) = np_random s.
Proof. destruct s. cbn. repeat split. Qed.

(** One pass through the loop body: an IndexError that leaves the state as
    it was when a column is missing, the effect of one scanned pair
    otherwise. *)
Lemma scan_body_eq (i j : Z) (s : Kernel RandomState) :
  scan_body spearmanr i j s =
  if present (df s) (i, j) then Ok tt (scanned spearmanr [(i, j)] s)
  else Raise IndexError s.
Proof.
  unfold scan_body, present, bind, df_iloc, stats_spearmanr, get, modify, ret.
  cbn [fst snd].
  destruct (iloc_col (df s) i) as [Xi|] eqn:Ei; [|reflexivity].
  destruct (iloc_col (df s) j) as [Xj|] eqn:Ej; [|reflexivity].
  destruct s as [n t d c sp g tr]. cbn in Ei, Ej |- *.
  unfold scanned, below, pvalue_of, test_of. cbn. rewrite Ei, Ej. cbn.
  destruct (snd (spearmanr Xi Xj) <? c)%float; cbn; [reflexivity|].
  now rewrite List.app_nil_r.
Qed.

(** When every column is there the scan goes through all the pairs. *)
Lemma run_pairs_ok (l : list (Z * Z)) (s : Kernel RandomState) :
  (forall p, In p l -> present (df s) p = true) ->
  run_pairs spearmanr l s = Ok tt (scanned spearmanr l s).
Proof.
  revert s. induction l as [|[i j] l IH]; intros s H.
  - cbn. unfold ret. now rewrite scanned_nil.
  - unfold run_pairs. cbn [for_ fst snd]. unfold bind.
    rewrite scan_body_eq, (H (i, j)) by now left.
    change (for_ l _) with (@run_pairs RandomState spearmanr l). rewrite IH.
    + now rewrite <- scanned_app.
    + intros p Hp. destruct (scanned_frame [(i, j)] s) as (_ & _ & -> & _).
      apply H. now right.
Qed.

(** However the scan ends, it has gone through a prefix of the pairs. *)
Lemma run_pairs_final (l : list (Z * Z)) (s : Kernel RandomState) :
  exists l1 l2, l = l1 ++ l2 /\ final (run_pairs spearmanr l s) = scanned spearmanr l1 s.
Proof.
  revert s. induction l as [|[i j] l IH]; intros s.
  - exists [], []. split; [reflexivity|]. cbn. now rewrite scanned_nil.
  - unfold run_pairs. cbn [for_ fst snd]. unfold bind. rewrite scan_body_eq.
    destruct (present (df s) (i, j)).
    + change (for_ l _) with (@run_pairs RandomState spearmanr l).
      destruct (IH (scanned spearmanr [(i, j)] s)) as (l1 & l2 & -> & E).
      exists ((i, j) :: l1), l2. split; [reflexivity|].
      rewrite E. now rewrite <- scanned_app.
    + exists [], ((i, j) :: l). split; [reflexivity|]. cbn [final].
      now rewrite scanned_nil.
Qed.

(** The two nested loops go through [pairs N]. *)
Lemma scan_loop_eq (s : Kernel RandomState) :
  scan_loop spearmanr s = run_pairs spearmanr (pairs (N s)) s.
Proof.
  unfold scan_loop, bind at 1, get at 1, pairs.
  remember (N s) as n eqn:Hn. generalize (range 0 n) as l.
  revert s Hn. intros s Hn l. revert s Hn.
  induction l as [|i l IH]; intros s Hn; [reflexivity|].
  cbn [for_ flat_map]. unfold run_pairs. rewrite for_app.
  unfold bind at 1 2, get, bind at 2. rewrite <- Hn, for_map.
  change (for_ (range (i + 1) n) _ s)
    with (for_ (range (i + 1) n) (fun j => scan_body spearmanr i j) s).
  pose proof (run_pairs_final (map (pair i) (range (i + 1) n)) s) as (l1 & l2 & _ & E).
  unfold run_pairs in E. rewrite for_map in E. cbn [fst snd] in E.
  destruct (for_ (range (i + 1) n) (fun j => scan_body spearmanr i j) s)
    as [[] s1|e s1]; [|reflexivity].
  cbn [final] in E. apply IH.
  rewrite E. destruct (scanned_frame l1 s) as (-> & _). exact Hn.
Qed.

End ScanFacts.

(** ** Labels and frames *)

Lemma to_int_not_nil (z : Z) :
  Z.to_int z <> Decimal.Pos Decimal.Nil /\ Z.to_int z <> Decimal.Neg Decimal.Nil.
Proof.
  destruct z as [|p|p]; cbn; split; try discriminate;
    intros [= E]; exact (Unsigned.to_uint_nonnil p E).
Qed.

Lemma str_of_int_inj (a b : Z) : str_of_int a = str_of_int b -> a = b.
Proof.
  unfold str_of_int. intros E.
  destruct (to_int_not_nil a) as [Ha1 Ha2], (to_int_not_nil b) as [Hb1 Hb2].
  pose proof (NilZero.isi _ Ha1 Ha2) as Ia.
  pose proof (NilZero.isi _ Hb1 Hb2) as Ib.
  rewrite E, Ib in Ia. injection Ia as Ia.
  now apply DecimalZ.to_int_inj.
Qed.

Lemma label_inj (a b : Z) : label a = label b -> a = b.
Proof. unfold label. cbn. intros [= E]. now apply str_of_int_inj. Qed.

Lemma setitem_fresh (name : string) (X : Series) (d : DataFrame) :
  ~ In name (map fst d) -> setitem name X d = d ++ [(name, X)].
Proof.
  induction d as [|[k Y] d IH]; cbn [setitem map fst In app]; intros H; [reflexivity|].
  destruct (String.eqb_spec k name) as [E|E]; [tauto|].
  f_equal. apply IH. tauto.
Qed.

Lemma iloc_col_present (d : DataFrame) (i : Z) :
  0 <= i < ncols d -> exists X, iloc_col d i = Some X.
Proof.
  intros H. unfold iloc_col, ncols in *.
  replace (i <? 0) with false by (symmetry; apply Z.ltb_ge; lia).
  replace (0 <=? i) with true by (symmetry; apply Z.leb_le; lia).
  replace (i <? Z.of_nat (List.length d)) with true by (symmetry; apply Z.ltb_lt; lia).
  cbn [andb]. destruct (nth_error d (Z.to_nat i)) as [c|] eqn:E.
  - now exists (snd c).
  - apply nth_error_None in E. lia.
Qed.

(** In a frame of at least [n] columns, every pair of the scan finds both
    of its columns. *)
Lemma pairs_present (d : DataFrame) (n : Z) (p : Z * Z) :
  n <= ncols d -> In p (pairs n) -> present d p = true.
Proof.
  intros Hn Hp. destruct p as [i j]. apply In_pairs in Hp.
  unfold present. cbn [fst snd].
  destruct (iloc_col_present d i ltac:(lia)) as (Xi & ->).
  destruct (iloc_col_present d j ltac:(lia)) as (Xj & ->).
  reflexivity.
Qed.

Lemma test_of_present (d : DataFrame) (p : Z * Z) :
  present d p = true -> exists x y, test_of d p = [Spearmanr x y].
Proof.
  unfold present, test_of.
  destruct (iloc_col d (fst p)) as [x|]; [|discriminate].
  destruct (iloc_col d (snd p)) as [y|]; [|discriminate].
  intros _. now exists x, y.
Qed.

(** The tests of pairs that are all present: one each, and nothing else. *)
Lemma tests_of_present (d : DataFrame) (l : list (Z * Z)) :
  (forall p, In p l -> present d p = true) ->
  tests_run (flat_map (test_of d) l) = Z.of_nat (List.length l) /\
  logged (flat_map (test_of d) l) = [].
Proof.
  unfold tests_run, logged.
  induction l as [|p l IH]; intros H; cbn [flat_map]; [now split|].
  destruct (test_of_present d p (H p (or_introl eq_refl))) as (x & y & ->).
  destruct IH as [IH1 IH2]; [intros q Hq; apply H; now right|].
  cbn [app filter is_test is_log List.length]. split; [lia|assumption].
Qed.

(** The scan writes tests into the trace, never a message. *)
Lemma logged_tests (d : DataFrame) (l : list (Z * Z)) :
  logged (flat_map (test_of d) l) = [].
Proof.
  unfold logged. induction l as [|p l IH]; [reflexivity|].
  cbn [flat_map]. rewrite filter_app, IH, List.app_nil_r.
  unfold test_of. destruct (iloc_col d (fst p)); [|reflexivity].
  destruct (iloc_col d (snd p)); reflexivity.
Qed.

Lemma tests_run_app (t1 t2 : list event) :
  tests_run (t1 ++ t2) = tests_run t1 + tests_run t2.
Proof. unfold tests_run. rewrite filter_app, length_app. lia. Qed.

Lemma logged_app (t1 t2 : list event) : logged (t1 ++ t2) = logged t1 ++ logged t2.
Proof. apply filter_app. Qed.

Lemma range_NoDup (lo hi : Z) : NoDup (range lo hi).
Proof.
  remember (Z.to_nat (hi - lo)) as k eqn:Hk.
  revert lo Hk. induction k as [|k IH]; intros lo Hk.
  - rewrite range_nil by lia. constructor.
  - rewrite range_cons by lia. constructor; [|apply IH; lia].
    rewrite In_range. lia.
Qed.

(** Iterations that relate their outcomes relate the outcomes of the loop. *)
Lemma for_same {S X} (R : S -> S -> Prop) (l : list X) (body : X -> M S unit) :
  (forall x s1 s2, In x l -> R s1 s2 -> same_outcome R (body x s1) (body x s2)) ->
  forall s1 s2, R s1 s2 -> same_outcome R (for_ l body s1) (for_ l body s2).
Proof.
  induction l as [|x l IH]; intros Hb s1 s2 HR; cbn [for_]; [exact HR|].
  unfold bind. pose proof (Hb x s1 s2 (or_introl eq_refl) HR) as H1.
  destruct (body x s1) as [[] a|e a], (body x s2) as [[] b|e' b];
    cbn [same_outcome] in H1 |- *; try contradiction; [|exact H1].
  apply IH; [|exact H1]. intros y t1 t2 Hy. apply Hb. now right.
Qed.

(** ** The generation, series by series *)

Section GenerateFacts.

Context {RandomState : Type}.
Variable gauss : RandomState -> float * RandomState.

Lemma draws_length (n : nat) (g : RandomState) :
  List.length (fst (draws gauss n g)) = n.
Proof.
  revert g. induction n as [|n IH]; intros g; cbn [draws]; [reflexivity|].
  destruct (gauss g) as [x g1]. specialize (IH g1).
  destruct (draws gauss n g1) as [xs g2]. cbn in *. now rewrite IH.
Qed.

(** One pass through the loop body: numpy's ValueError, the state as it
    was, for a negative [T]; one more series under the label of [i], drawn
    from the generator, otherwise. *)
Lemma generate_body_eq (i : Z) (s : Kernel RandomState) :
  generate_body gauss i s =
  if T s <? 0 then Raise ValueError s
  else let r := draws gauss (Z.to_nat (T s)) (np_random s) in
       Ok tt (set_df (setitem (label i) (fst r) (df s)) (set_np_random (snd r) s)).
Proof.
  unfold generate_body, bind, get, np_random_normal, modify.
  destruct (T s <? 0); [reflexivity|].
  destruct (draws gauss (Z.to_nat (T s)) (np_random s)) as [xs g]. reflexivity.
Qed.

Lemma generate_for_ok (l : list Z) (s : Kernel RandomState) :
  0 <= T s -> NoDup l ->
  (forall i, In i l -> ~ In (label i) (map fst (df s))) ->
  exists s', for_ l (generate_body gauss) s = Ok tt s' /\
    map fst (df s') = map fst (df s) ++ map label l /\
    (Forall (fun c => List.length (snd c) = Z.to_nat (T s)) (df s) ->
     Forall (fun c => List.length (snd c) = Z.to_nat (T s)) (df s')) /\
    same_scan_state s s'.
Proof.
  revert s. induction l as [|i l IH]; intros s HT Hnd Hfresh.
  - exists s. cbn. unfold ret, same_scan_state.
    rewrite List.app_nil_r. repeat split; auto.
  - cbn [for_]. unfold bind. rewrite generate_body_eq.
    replace (T s <? 0) with false by (symmetry; apply Z.ltb_ge; lia).
    cbv zeta.
    set (r := draws gauss (Z.to_nat (T s)) (np_random s)).
    set (s1 := set_df _ _).
    assert (Hdf : df s1 = df s ++ [(label i, fst r)]).
    { subst s1. cbn. apply setitem_fresh. apply Hfresh. now left. }
    assert (HT1 : T s1 = T s) by reflexivity.
    inversion Hnd as [|? ? Hi Hl]; subst.
    destruct (IH s1) as (s' & E & Hnames & Hlen & Hsame).
    + lia.
    + assumption.
    + intros k Hk. rewrite Hdf, map_app, in_app_iff. cbn [map fst In].
      intros [Hin|[Heq|[]]].
      * apply (Hfresh k); [now right|assumption].
      * apply label_inj in Heq. congruence.
    + exists s'. split; [exact E|]. split; [|split].
      * rewrite Hnames, Hdf, map_app, <- List.app_assoc. reflexivity.
      * intros Hall. rewrite HT1 in Hlen. apply Hlen. rewrite Hdf.
        apply Forall_app. split; [assumption|].
        constructor; [|constructor]. cbn [snd]. apply draws_length.
      * unfold same_scan_state in *. subst s1. cbn in Hsame. exact Hsame.
Qed.

(** With a size that numpy accepts the cell ends normally: the frame holds
    max(n, 0) series of length [t], and the scan's own state is untouched. *)
Lemma generate_ok (n t : Z) (s : Kernel RandomState) :
  0 <= t ->
  exists s', generate gauss n t s = Ok tt s' /\
    N s' = n /\ T s' = t /\ ncols (df s') = Z.max 0 n /\
    Forall (fun c => List.length (snd c) = Z.to_nat t) (df s') /\
    cutoff s' = cutoff s /\ significant_pairs s' = significant_pairs s /\
    trace s' = trace s.
Proof.
  intros Ht. unfold generate, generate_loop, bind, modify, get.
  set (s0 := set_T t (set_N n (set_df empty_frame s))).
  destruct (generate_for_ok (range 0 (N s0)) s0) as (s' & E & Hnames & Hlen & Hsame).
  - exact Ht.
  - apply range_NoDup.
  - intros i _ [].
  - exists s'. split; [exact E|].
    destruct Hsame as (HN & HT & Hc & Hsp & Htr). cbn in HN, HT, Hc, Hsp, Htr.
    repeat split; try assumption.
    + unfold ncols. rewrite <- (length_map fst), Hnames. cbn [df s0 set_T set_N set_df empty_frame map app].
      rewrite length_map, length_range. cbn. lia.
    + apply Hlen. constructor.
Qed.

(** A negative size is refused by numpy at the first draw, after the cell
    has rebound [df], [N] and [T]. *)
Lemma generate_raise (n t : Z) (s : Kernel RandomState) :
  t < 0 -> 1 <= n ->
  generate gauss n t s = Raise ValueError (set_T t (set_N n (set_df empty_frame s))).
Proof.
  intros Ht Hn. unfold generate, generate_loop, bind, modify, get.
  cbn [N set_T set_N set_df]. rewrite range_cons by lia. cbn [for_].
  unfold bind. rewrite generate_body_eq. cbn [T set_T].
  replace (t <? 0) with true by (symmetry; apply Z.ltb_lt; lia). reflexivity.
Qed.

(** The generation reads nothing but the generator. *)
Lemma generate_same (n t : Z) (s1 s2 : Kernel RandomState) :
  np_random s1 = np_random s2 ->
  same_outcome same_data (generate gauss n t s1) (generate gauss n t s2).
Proof.
  intros Hg. unfold generate, generate_loop, bind, modify, get.
  cbn [N set_T set_N set_df].
  apply for_same.
  - intros i a b _ (HN & HT & Hdf & Hr). rewrite !generate_body_eq.
    rewrite HT, Hr, Hdf. destruct (T b <? 0); cbn [same_outcome].
    + split; [reflexivity|]. repeat split; assumption.
    + repeat split; cbn; assumption.
  - repeat split. exact Hg.
Qed.

End GenerateFacts.

Lemma lex_lt_irrefl (p : Z * Z) : ~ lex_lt p p.
Proof. unfold lex_lt. lia. Qed.

Lemma ssorted_lex_NoDup (l : list (Z * Z)) : StronglySorted lex_lt l -> NoDup l.
Proof.
  induction 1 as [|p l Hl IH Hp]; constructor; [|assumption].
  intros Hin. rewrite Forall_forall in Hp. exact (lex_lt_irrefl p (Hp p Hin)).
Qed.

Lemma below_iff (spearmanr : Series -> Series -> float * float)
    (d : DataFrame) (c : float) (p : Z * Z) :
  below spearmanr d c p = true <->
  exists pv, pvalue_of spearmanr d p = Some pv /\ (pv <? c)%float = true.
Proof.
  unfold below. destruct (pvalue_of spearmanr d p) as [pv|]; split.
  - intros H. now exists pv.
  - intros (pv' & [= <-] & H). exact H.
  - discriminate.
  - intros (pv' & [=] & _).
Qed.

(** ** The scan cell *)

Section ScanCell.

Context {RandomState : Type}.
Variable spearmanr : Series -> Series -> float * float.

Lemma scan_ok (c : float) (s : Kernel RandomState) :
  N s <= ncols (df s) ->
  scan spearmanr c s = Ok tt (scanned spearmanr (pairs (N s)) (scan_start c s)).
Proof.
  intros H. unfold scan, bind, modify. rewrite scan_loop_eq.
  apply run_pairs_ok. intros p Hp. now apply pairs_present with (n := N s).
Qed.

Lemma scan_final (c : float) (s : Kernel RandomState) :
  exists l1 l2, pairs (N s) = l1 ++ l2 /\
    final (scan spearmanr c s) = scanned spearmanr l1 (scan_start c s).
Proof.
  unfold scan, bind, modify. rewrite scan_loop_eq.
  apply (run_pairs_final spearmanr (pairs (N s)) (scan_start c s)).
Qed.

(** What the full scan leaves in the kernel. *)
Lemma scanned_all (c : float) (s : Kernel RandomState) :
  N s <= ncols (df s) ->
  let s' := scanned spearmanr (pairs (N s)) (scan_start c s) in
  significant_pairs s' = filter (below spearmanr (df s) c) (pairs (N s)) /\
  tests_run (trace s') - tests_run (trace s) = Z.of_nat (List.length (pairs (N s))) /\
  logged (trace s') = logged (trace s).
Proof.
  intros H. destruct s as [n t d c0 sp g tr]. cbn in H |- *.
  destruct (tests_of_present d (pairs n)) as [Ht Hl].
  { intros p Hp. now apply pairs_present with (n := n). }
  split; [reflexivity|]. rewrite tests_run_app, logged_app, Ht, Hl, List.app_nil_r.
  split; [lia|reflexivity].
Qed.

End ScanCell.

(** The test of a pair whose columns are there is the call of the
    primitive on these two columns, first index first. *)
Lemma test_of_columns (d : DataFrame) (p : Z * Z) :
  present d p = true ->
  exists Xi Xj, iloc_col d (fst p) = Some Xi /\ iloc_col d (snd p) = Some Xj /\
                test_of d p = [Spearmanr Xi Xj].
Proof.
  unfold present, test_of.
  destruct (iloc_col d (fst p)) as [Xi|]; [|discriminate].
  destruct (iloc_col d (snd p)) as [Xj|]; [|discriminate].
  intros _. now exists Xi, Xj.
Qed.

(** * The claims *)

Section Claims.

Context {RandomState : Type}.
Variable gauss : RandomState -> float * RandomState.
Variable spearmanr : Series -> Series -> float * float.

(** C1.  On a frame that holds the [N] series, the scan cell ends normally
    and the count it reports, [len(significant_pairs)], is the number of
    index pairs (i, j) with i < j whose p-value is strictly below the
    cutoff; the list holds exactly those pairs, and a pair whose p-value
    equals the cutoff (as a float comparison, or as the very same value) is
    not in it. *)
Theorem C1_count_is_pairs_below_cutoff (c : float) (s : Kernel RandomState) :
  N s <= ncols (df s) ->
  exists s', scan spearmanr c s = Ok tt s' /\
    cell_count s' = count_below spearmanr (df s) c (N s) /\
    (forall i j, In (i, j) (significant_pairs s') <->
       (0 <= i < j /\ j < N s) /\
       exists pv, pvalue_of spearmanr (df s) (i, j) = Some pv /\
                  (pv <? c)%float = true) /\
    (forall i j pv, pvalue_of spearmanr (df s) (i, j) = Some pv ->
       (pv =? c)%float = true \/ pv = c -> ~ In (i, j) (significant_pairs s')).
Proof.
  intros H. eexists. split; [now apply scan_ok|].
  destruct (scanned_all spearmanr c s H) as (Hsp & _ & _).
  cbv zeta in Hsp. unfold cell_count. rewrite Hsp.
  split; [|split].
  - unfold count_below. now rewrite square_filter.
  - intros i j. rewrite filter_In, In_pairs, below_iff. reflexivity.
  - intros i j pv Hpv Heq Hin. apply filter_In in Hin. destruct Hin as [_ Hb].
    apply below_iff in Hb. destruct Hb as (pv' & Hpv' & Hlt).
    rewrite Hpv in Hpv'. injection Hpv' as <-.
    destruct Heq as [Heq| ->].
    + rewrite (eqb_not_below _ _ Heq) in Hlt. discriminate.
    + rewrite self_not_below in Hlt. discriminate.
Qed.

(** C2.  For N >= 2, on a frame that holds the [N] series, the two loops
    go through exactly the pairs (i, j) with 0 <= i < j < N, each once, in
    increasing lexicographic order, and there are N(N-1)/2 of them: the
    trace gains one test for each element of [pairs N], in this order,
    each the call of the primitive on column i and column j; [pairs N] has
    exactly the pairs with 0 <= i < j < N, is strictly increasing and has
    N(N-1)/2 elements. *)
Theorem C2_pairs_visited (s : Kernel RandomState) :
  2 <= N s -> N s <= ncols (df s) ->
  exists s', scan_loop spearmanr s = Ok tt s' /\
    tests_run (trace s') - tests_run (trace s) = N s * (N s - 1) / 2 /\
    Z.of_nat (List.length (pairs (N s))) = N s * (N s - 1) / 2 /\
    trace s' = trace s ++ flat_map (test_of (df s)) (pairs (N s)) /\
    (forall p, In p (pairs (N s)) ->
       exists Xi Xj, iloc_col (df s) (fst p) = Some Xi /\
                     iloc_col (df s) (snd p) = Some Xj /\
                     test_of (df s) p = [Spearmanr Xi Xj]) /\
    (forall i j, In (i, j) (pairs (N s)) <-> 0 <= i < j /\ j < N s) /\
    StronglySorted lex_lt (pairs (N s)) /\ NoDup (pairs (N s)).
Proof.
  intros H2 H.
  assert (Hp : forall p, In p (pairs (N s)) -> present (df s) p = true).
  { intros p Hp. now apply pairs_present with (n := N s). }
  exists (scanned spearmanr (pairs (N s)) s). split.
  - rewrite scan_loop_eq. now apply run_pairs_ok.
  - assert (Htr : trace (scanned spearmanr (pairs (N s)) s)
                  = trace s ++ flat_map (test_of (df s)) (pairs (N s)))
      by (destruct s; reflexivity).
    destruct (tests_of_present (df s) (pairs (N s)) Hp) as [Ht _].
    rewrite Htr, tests_run_app, Ht, pairs_length by lia.
    split; [lia|]. split; [reflexivity|]. split; [reflexivity|].
    split; [intros p Hin; apply test_of_columns; now apply Hp|].
    split; [intros i j; apply In_pairs|].
    split; [apply pairs_sorted|apply ssorted_lex_NoDup, pairs_sorted].
Qed.

(** C6.  At the boundary: with N = 2 (and the two series in the frame) the
    scan runs exactly one test, that of column 0 against column 1; with
    N = 0 or N = 1 it runs none, leaves the trace as it was, and ends
    normally with an empty list and a count of 0. *)
Theorem C6_boundary (c : float) (s : Kernel RandomState) :
  N s = 0 \/ N s = 1 \/ (N s = 2 /\ 2 <= ncols (df s)) ->
  exists s', scan spearmanr c s = Ok tt s' /\
    tests_run (trace s') - tests_run (trace s) = (if N s =? 2 then 1 else 0) /\
    (N s <= 1 -> significant_pairs s' = [] /\ cell_count s' = 0) /\
    (N s = 2 ->
       exists X0 X1, iloc_col (df s) 0 = Some X0 /\ iloc_col (df s) 1 = Some X1 /\
                     trace s' = trace s ++ [Spearmanr X0 X1]) /\
    (N s <= 1 -> trace s' = trace s).
Proof.
  intros H.
  assert (Hp : forall p, In p (pairs (N s)) -> present (df s) p = true).
  { intros p Hp. destruct H as [H|[H|[H Hc]]].
    - rewrite pairs_nil in Hp by lia. destruct Hp.
    - rewrite pairs_nil in Hp by lia. destruct Hp.
    - apply pairs_present with (n := N s); [lia|assumption]. }
  exists (scanned spearmanr (pairs (N s)) (scan_start c s)). split.
  - unfold scan, bind, modify. rewrite scan_loop_eq. apply run_pairs_ok. exact Hp.
  - assert (Htr : trace (scanned spearmanr (pairs (N s)) (scan_start c s))
                  = trace s ++ flat_map (test_of (df s)) (pairs (N s)))
      by (destruct s; reflexivity).
    assert (Hsp : significant_pairs (scanned spearmanr (pairs (N s)) (scan_start c s))
                  = filter (below spearmanr (df s) c) (pairs (N s)))
      by (destruct s; reflexivity).
    destruct (tests_of_present (df s) (pairs (N s)) Hp) as [Ht _].
    unfold cell_count. rewrite Htr, Hsp, tests_run_app, Ht.
    split; [|split; [|split]].
    + destruct H as [->|[->|[-> _]]];
        [rewrite pairs_nil by lia|rewrite pairs_nil by lia|rewrite pairs_two];
        cbn [List.length Z.of_nat Z.eqb Pos.eqb]; lia.
    + intros Hn. rewrite pairs_nil by lia. split; reflexivity.
    + intros H2. rewrite H2 in Hp |- *. rewrite pairs_two. cbn [flat_map].
      rewrite List.app_nil_r.
      destruct (test_of_columns (df s) (0, 1) (Hp (0, 1) (or_introl eq_refl)))
        as (X0 & X1 & E0 & E1 & ->).
      exists X0, X1. cbn [fst snd] in E0, E1. repeat split; assumption.
    + intros Hn. rewrite pairs_nil by lia. cbn [flat_map]. apply List.app_nil_r.
Qed.

(** C7.  The expected count of cell [9], (N * (N-1) / 2) * 0.05 in binary64
    arithmetic, is exactly 9.5 at N = 20. *)
Theorem C7_expected_count_20 (s : Kernel RandomState) :
  expected_count 20 0.05%float = 9.5%float /\
  cell_expected (set_N 20 s) = 9.5%float.
Proof. split; vm_compute; reflexivity. Qed.

(** C9.  However the two loops end, they leave the series set, the cutoff,
    [N], [T] and the generator as they found them, and write no message;
    they only extend [significant_pairs] and the record of tests. *)
Theorem C9_scan_frame (s : Kernel RandomState) :
  let s' := final (scan_loop spearmanr s) in
  df s' = df s /\ cutoff s' = cutoff s /\ N s' = N s /\ T s' = T s /\
  np_random s' = np_random s /\
  (exists l, significant_pairs s' = significant_pairs s ++ l) /\
  logged (trace s') = logged (trace s).
Proof.
  cbv zeta. rewrite scan_loop_eq.
  destruct (run_pairs_final spearmanr (pairs (N s)) s) as (l1 & l2 & _ & ->).
  destruct (scanned_frame spearmanr l1 s) as (HN & HT & Hdf & Hc & Hg).
  repeat split; try assumption.
  - eexists. destruct s; reflexivity.
  - destruct s as [n t d c0 sp g tr]. unfold scanned.
    cbn [trace set_trace set_significant_pairs df].
    now rewrite logged_app, logged_tests, List.app_nil_r.
Qed.

(** C10.  However the scan cell ends, every element (i, j) of
    [significant_pairs] has 0 <= i < j < N, and the list is strictly
    increasing in the lexicographic order, hence without repetition. *)
Theorem C10_pairs_ordered (c : float) (s : Kernel RandomState) :
  let sp := significant_pairs (final (scan spearmanr c s)) in
  Forall (fun p => 0 <= fst p < snd p /\ snd p < N s) sp /\
  StronglySorted lex_lt sp /\ NoDup sp.
Proof.
  cbv zeta. destruct (scan_final spearmanr c s) as (l1 & l2 & E & ->).
  assert (Hsp : significant_pairs (scanned spearmanr l1 (scan_start c s))
                = filter (below spearmanr (df s) c) l1)
    by (destruct s; reflexivity).
  rewrite Hsp.
  assert (Hs : StronglySorted lex_lt (filter (below spearmanr (df s) c) l1)).
  { apply ssorted_filter. apply ssorted_prefix with (l2 := l2).
    rewrite <- E. apply pairs_sorted. }
  split; [|split; [exact Hs|now apply ssorted_lex_NoDup]].
  apply Forall_forall. intros [i j] Hin. apply filter_In in Hin.
  destruct Hin as [Hin _]. cbn [fst snd]. apply In_pairs.
  rewrite E. apply in_or_app. now left.
Qed.

End Claims.

(** ** The experiment as a whole *)

Section ExperimentClaims.

Context {RandomState : Type}.
Variable gauss : RandomState -> float * RandomState.
Variable spearmanr : Series -> Series -> float * float.

(** With no series to draw the generation cell only rebinds its names. *)
Lemma generate_empty (n t : Z) (s : Kernel RandomState) :
  n <= 0 ->
  generate gauss n t s = Ok tt (set_T t (set_N n (set_df empty_frame s))).
Proof.
  intros Hn. unfold generate, generate_loop, bind, modify, get.
  cbn [N set_T set_N set_df]. now rewrite range_nil by lia.
Qed.

Lemma generate_total (n t : Z) (s : Kernel RandomState) :
  0 <= t \/ n <= 0 ->
  exists s', generate gauss n t s = Ok tt s' /\
    N s' = n /\ T s' = t /\ ncols (df s') = Z.max 0 n /\
    Forall (fun c => List.length (snd c) = Z.to_nat t) (df s') /\
    cutoff s' = cutoff s /\ significant_pairs s' = significant_pairs s /\
    trace s' = trace s.
Proof.
  intros H. destruct (Z_le_gt_dec 0 t) as [Ht|Ht]; [now apply generate_ok|].
  destruct H as [H|H]; [lia|].
  eexists. split; [now apply generate_empty|].
  cbn. repeat split; [lia|constructor].
Qed.

(** The scan reads nothing but the frame, [N] and, once the cell has set
    them, the cutoff and the list. *)
Lemma run_pairs_same (l : list (Z * Z)) (s1 s2 : Kernel RandomState) :
  same_results s1 s2 ->
  same_outcome same_results (run_pairs spearmanr l s1) (run_pairs spearmanr l s2).
Proof.
  apply for_same. clear s1 s2.
  intros [i j] a b _ ((HN & HT & Hdf & Hg) & Hc & Hsp). cbn [fst snd].
  rewrite !scan_body_eq, Hdf.
  destruct (present (df b) (i, j)); cbn [same_outcome].
  - destruct a, b. cbn in *. subst. repeat split.
  - split; [reflexivity|]. repeat split; assumption.
Qed.

Lemma scan_same (c : float) (s1 s2 : Kernel RandomState) :
  same_data s1 s2 ->
  same_outcome same_results (scan spearmanr c s1) (scan spearmanr c s2).
Proof.
  intros (HN & HT & Hdf & Hg). unfold scan, bind, modify.
  rewrite !scan_loop_eq. cbn [N set_significant_pairs set_cutoff].
  rewrite HN. apply run_pairs_same. repeat split; assumption.
Qed.

(** C3, as the code has it.  The cells check no configuration: for every
    [N], every [T] numpy accepts as a size (or with no series to draw) and
    every cutoff, also when N < 2, T < 2 or the cutoff lies outside (0, 1),
    the experiment ends normally, having generated max(N, 0) series of
    length [T] and run one test for each of their pairs. *)
Theorem C3_no_configuration_check (n t : Z) (c : float) (s : Kernel RandomState) :
  0 <= t \/ n <= 0 ->
  exists s', experiment gauss spearmanr n t c s = Ok tt s' /\
    ncols (df s') = Z.max 0 n /\
    Forall (fun col => List.length (snd col) = Z.to_nat t) (df s') /\
    tests_run (trace s') - tests_run (trace s)
      = Z.max 0 n * (Z.max 0 n - 1) / 2 /\
    cutoff s' = c.
Proof.
  intros H. unfold experiment, bind.
  destruct (generate_total n t s H) as (s1 & -> & HN & HT & Hcols & Hlen & _ & _ & Htr).
  assert (Hle : N s1 <= ncols (df s1)) by lia.
  rewrite (scan_ok spearmanr c s1 Hle). eexists. split; [reflexivity|].
  destruct (scanned_all spearmanr c s1 Hle) as (_ & Ht & _). cbv zeta in Ht.
  destruct (scanned_frame spearmanr (pairs (N s1)) (scan_start c s1))
    as (_ & _ & Hdf & Hc & _).
  rewrite Hdf, Hc. cbn [df cutoff scan_start set_significant_pairs set_cutoff].
  repeat split; try assumption.
  rewrite <- Htr, Ht, HN.
  destruct (Z_le_gt_dec n 0) as [Hn|Hn].
  - rewrite pairs_nil by lia. replace (Z.max 0 n) with 0 by lia. reflexivity.
  - rewrite pairs_length by lia. now replace (Z.max 0 n) with n by lia.
Qed.


(** C5.  Two runs of the experiment with the same [N], [T] and cutoff,
    started on kernels whose generators are in the same state, end the
    same way, with the same series data and the same significant pairs,
    whatever else the two kernels held before. *)
Theorem C5_deterministic_given_seed (n t : Z) (c : float)
    (s1 s2 : Kernel RandomState) :
  np_random s1 = np_random s2 ->
  match experiment gauss spearmanr n t c s1,
        experiment gauss spearmanr n t c s2 with
  | Ok _ a, Ok _ b =>
      df a = df b /\ significant_pairs a = significant_pairs b /\
      np_random a = np_random b
  | Raise e a, Raise e' b => e = e' /\ df a = df b /\ np_random a = np_random b
  | _, _ => False
  end.
Proof.
  intros Hg. unfold experiment, bind.
  pose proof (generate_same gauss n t s1 s2 Hg) as H.
  destruct (generate gauss n t s1) as [[] a|e a],
           (generate gauss n t s2) as [[] b|e' b];
    cbn [same_outcome] in H; try contradiction.
  - pose proof (scan_same c a b H) as H'.
    destruct (scan spearmanr c a) as [[] a'|e a'],
             (scan spearmanr c b) as [[] b'|e' b'];
      cbn [same_outcome] in H'; try contradiction.
    + destruct H' as ((_ & _ & Hdf & Hr) & _ & Hsp). auto.
    + destruct H' as (He & (_ & _ & Hdf & Hr) & _). auto.
  - destruct H as (He & _ & _ & Hdf & Hr). auto.
Qed.

(** C8, as the code has it.  The scan has no correction mode: every
    p-value is compared with the raw cutoff, so that the list is the one of
    the specified scanner with the correction off. *)
Theorem C8_raw_cutoff_only (c : float) (s : Kernel RandomState) :
  N s <= ncols (df s) ->
  exists s', scan spearmanr c s = Ok tt s' /\
    significant_pairs s' = spec_scanner spearmanr false (df s) c (N s).
Proof.
  intros H. eexists. split; [now apply scan_ok|].
  destruct (scanned_all spearmanr c s H) as (Hsp & _). exact Hsp.
Qed.

End ExperimentClaims.

(** * The claims on the stand-in libraries *)

(** The kernel [Sample.loaded] after its scan: the pair (0, 1), whose
    p-value is NaN, is left out; the pairs (0, 2) and (1, 2), with p-values
    0.02 and 0.01, are kept; three tests are on record and no message. *)
Lemma sample_scan :
  scan Sample.spearmanr 0.05%float Sample.loaded
  = Ok tt (mkKernel 3 1 Sample.three 0.05%float [(0, 2); (1, 2)] 3
             [Spearmanr [0%float] [1%float]; Spearmanr [0%float] [2%float];
              Spearmanr [1%float] [2%float]]).
Proof. vm_compute. reflexivity. Qed.

Lemma sample_columns : N Sample.loaded <= ncols (df Sample.loaded).
Proof. vm_compute. discriminate. Defined.

Lemma C1_witness :
  N Sample.loaded <= ncols (df Sample.loaded) /\
  exists s', scan Sample.spearmanr 0.05%float Sample.loaded = Ok tt s' /\
             cell_count s' = 2 /\ ~ In (0, 1) (significant_pairs s') /\
             In (0, 2) (significant_pairs s').
Proof.
  split; [exact sample_columns|].
  destruct (C1_count_is_pairs_below_cutoff Sample.spearmanr 0.05%float
              Sample.loaded sample_columns) as (s' & E & Hc & Hin & _).
  exists s'. split; [exact E|]. split; [|split].
  - rewrite Hc. vm_compute. reflexivity.
  - intros H. apply Hin in H. destruct H as (_ & pv & Hpv & Hlt).
    vm_compute in Hpv. injection Hpv as <-. vm_compute in Hlt. discriminate.
  - apply Hin. split; [change (N Sample.loaded) with 3; lia|].
    eexists. split; vm_compute; reflexivity.
Defined.

Lemma C2_witness :
  2 <= N Sample.loaded /\
  exists s', scan_loop Sample.spearmanr Sample.loaded = Ok tt s' /\
             tests_run (trace s') = 3 /\
             trace s' = [Spearmanr [0%float] [1%float];
                         Spearmanr [0%float] [2%float];
                         Spearmanr [1%float] [2%float]].
Proof.
  assert (H2 : 2 <= N Sample.loaded) by (vm_compute; discriminate).
  split; [exact H2|].
  destruct (C2_pairs_visited Sample.spearmanr Sample.loaded H2 sample_columns)
    as (s' & E & Ht & _ & Htr & _).
  exists s'. split; [exact E|]. split.
  - change (tests_run (trace Sample.loaded)) with 0 in Ht.
    rewrite Z.sub_0_r in Ht. rewrite Ht. reflexivity.
  - rewrite Htr. vm_compute. reflexivity.
Defined.

(** C3 fails on the code: with one series of length one, a configuration
    the specification calls invalid twice over, the experiment raises
    nothing, generates the series and ends normally. *)
Lemma C3_counterexample :
  invalid_config 1 1 0.05%float /\
  experiment Sample.gauss Sample.spearmanr 1 1 0.05%float Sample.fresh
  = Ok tt (mkKernel 1 1 [("X0"%string, [0%float])] 0.05%float [] 1 []) /\
  ~ rejects_invalid Sample.gauss Sample.spearmanr 1 1 0.05%float Sample.fresh.
Proof.
  assert (Hinv : invalid_config 1 1 0.05%float) by (left; lia).
  split; [exact Hinv|]. split; [vm_compute; reflexivity|].
  intros H. specialize (H Hinv). vm_compute in H. exact H.
Qed.

Lemma C3_witness :
  (0 <= 1 \/ 1 <= 0) /\
  exists s', experiment Sample.gauss Sample.spearmanr 1 1 2%float Sample.fresh
             = Ok tt s' /\
             ncols (df s') = 1 /\ tests_run (trace s') = 0 /\ cutoff s' = 2%float.
Proof.
  assert (H : 0 <= 1 \/ 1 <= 0) by (left; lia).
  split; [exact H|].
  destruct (C3_no_configuration_check Sample.gauss Sample.spearmanr 1 1 2%float
              Sample.fresh H) as (s' & E & Hcols & _ & Ht & Hc).
  exists s'. split; [exact E|]. split; [exact Hcols|]. split; [|exact Hc].
  change (tests_run (trace Sample.fresh)) with 0 in Ht.
  rewrite Z.sub_0_r in Ht. exact Ht.
Defined.



Lemma C5_witness :
  np_random Sample.fresh = np_random (set_np_random 0 Sample.loaded) /\
  exists a b,
    experiment Sample.gauss Sample.spearmanr 3 1 0.05%float Sample.fresh
      = Ok tt a /\
    experiment Sample.gauss Sample.spearmanr 3 1 0.05%float
      (set_np_random 0 Sample.loaded) = Ok tt b /\
    df a = df b /\ significant_pairs a = significant_pairs b.
Proof.
  split; [reflexivity|].
  pose proof (C5_deterministic_given_seed Sample.gauss Sample.spearmanr
                3 1 0.05%float Sample.fresh (set_np_random 0 Sample.loaded)
                eq_refl) as H.
  destruct (experiment Sample.gauss Sample.spearmanr 3 1 0.05%float Sample.fresh)
    as [[] a|e a] eqn:Ea.
  - destruct (experiment Sample.gauss Sample.spearmanr 3 1 0.05%float
                (set_np_random 0 Sample.loaded)) as [[] b|e b] eqn:Eb.
    + exists a, b. destruct H as (Hdf & Hsp & _). auto.
    + destruct H.
  - vm_compute in Ea. discriminate.
Defined.

Lemma C6_witness :
  (N (set_N 2 Sample.loaded) = 0 \/ N (set_N 2 Sample.loaded) = 1 \/
   (N (set_N 2 Sample.loaded) = 2 /\ 2 <= ncols (df (set_N 2 Sample.loaded)))) /\
  exists s', scan Sample.spearmanr 0.05%float (set_N 2 Sample.loaded) = Ok tt s' /\
             tests_run (trace s') = 1 /\
             trace s' = [Spearmanr [0%float] [1%float]].
Proof.
  assert (H : N (set_N 2 Sample.loaded) = 0 \/ N (set_N 2 Sample.loaded) = 1 \/
              (N (set_N 2 Sample.loaded) = 2 /\
               2 <= ncols (df (set_N 2 Sample.loaded)))).
  { right. right. split; [reflexivity|vm_compute; discriminate]. }
  split; [exact H|].
  destruct (C6_boundary Sample.spearmanr 0.05%float (set_N 2 Sample.loaded) H)
    as (s' & E & Ht & _ & H2 & _).
  exists s'. split; [exact E|]. split.
  - change (tests_run (trace (set_N 2 Sample.loaded))) with 0 in Ht.
    rewrite Z.sub_0_r in Ht. exact Ht.
  - destruct (H2 eq_refl) as (X0 & X1 & E0 & E1 & Htr).
    vm_compute in E0, E1. injection E0 as <-. injection E1 as <-.
    rewrite Htr. reflexivity.
Defined.

(** C8 fails on the code: there is no correction mode to switch on.  On
    [Sample.loaded] the scan keeps the pair (0, 2), whose p-value 0.02 is
    below 0.05 but not below 0.05 / 3, which the corrected scanner of the
    specification leaves out. *)
Lemma C8_counterexample :
  significant_pairs (final (scan Sample.spearmanr 0.05%float Sample.loaded))
    = [(0, 2); (1, 2)] /\
  spec_scanner Sample.spearmanr true (df Sample.loaded) 0.05%float
    (N Sample.loaded) = [(1, 2)] /\
  significant_pairs (final (scan Sample.spearmanr 0.05%float Sample.loaded))
    <> spec_scanner Sample.spearmanr true (df Sample.loaded) 0.05%float
         (N Sample.loaded).
Proof.
  split; [vm_compute; reflexivity|]. split; [vm_compute; reflexivity|].
  vm_compute. discriminate.
Qed.

Lemma C8_witness :
  N Sample.loaded <= ncols (df Sample.loaded) /\
  exists s', scan Sample.spearmanr 0.05%float Sample.loaded = Ok tt s' /\
             significant_pairs s' = [(0, 2); (1, 2)].
Proof.
  split; [exact sample_columns|].
  destruct (C8_raw_cutoff_only Sample.spearmanr 0.05%float Sample.loaded
              sample_columns) as (s' & E & Hsp).
  exists s'. split; [exact E|]. rewrite Hsp. vm_compute. reflexivity.
Defined.

(** * Further properties of the cells *)

(** ** Order of floats, draws in sequence, missing columns *)

Lemma SFlt_le_trans (x y z : spec_float) :
  SFltb x y = true -> SFleb y z = true -> SFltb x z = true.
Proof.
  unfold SFltb, SFleb.
  destruct x as [sx|sx| |sx mx ex], y as [sy|sy| |sy my ey],
           z as [sz|sz| |sz mz ez]; cbn [SFcompare]; intros H1 H2;
    try discriminate; try reflexivity;
    repeat match goal with s : bool |- _ => destruct s end;
    try discriminate; try reflexivity;
    change (PosDef.Pos.compare_cont Eq) with Pos.compare in *;
    cmp_cases; cbn [CompOpp] in *; subst;
    try discriminate; try reflexivity; try lia.
Qed.

(** A p-value below a cutoff is below every cutoff that is at least as
    large. *)
Lemma below_le (p c1 c2 : float) :
  (c1 <=? c2)%float = true -> (p <? c1)%float = true -> (p <? c2)%float = true.
Proof.
  rewrite leb_spec, !ltb_spec. intros Hle Hlt.
  exact (SFlt_le_trans _ _ _ Hlt Hle).
Qed.

Lemma filter_length_le {A} (f g : A -> bool) (l : list A) :
  (forall x, In x l -> f x = true -> g x = true) ->
  (List.length (filter f l) <= List.length (filter g l))%nat /\
  incl (filter f l) (filter g l).
Proof.
  induction l as [|a l IH]; intros H; cbn [filter]; [split; [lia|apply incl_refl]|].
  destruct IH as [IHl IHi]; [intros x Hx; apply H; now right|].
  pose proof (H a (or_introl eq_refl)) as Ha.
  destruct (f a) eqn:Ef.
  - rewrite Ha by reflexivity. cbn [List.length]. split; [lia|].
    intros x [<-|Hx]; [now left|right; now apply IHi].
  - destruct (g a); cbn [List.length]; split; try lia; try assumption.
    now apply incl_tl.
Qed.

Lemma iloc_col_absent (d : DataFrame) (i : Z) :
  ncols d <= i -> iloc_col d i = None.
Proof.
  intros H. unfold iloc_col. assert (0 <= ncols d) by (unfold ncols; lia).
  replace (i <? 0) with false by (symmetry; apply Z.ltb_ge; lia).
  replace (i <? ncols d) with false by (symmetry; apply Z.ltb_ge; lia).
  now rewrite andb_false_r.
Qed.

Lemma In_pairs_NoDup (n : Z) : NoDup (pairs n).
Proof. apply ssorted_lex_NoDup, pairs_sorted. Qed.

Section MoreFacts.

Context {RandomState : Type}.
Variable gauss : RandomState -> float * RandomState.
Variable spearmanr : Series -> Series -> float * float.

(** Drawing a + b values is drawing a, then b from where that left the
    generator. *)
Lemma draws_app (a b : nat) (g : RandomState) :
  draws gauss (a + b) g =
  (fst (draws gauss a g) ++ fst (draws gauss b (snd (draws gauss a g))),
   snd (draws gauss b (snd (draws gauss a g)))).
Proof.
  revert g. induction a as [|a IH]; intros g; cbn [Nat.add draws].
  - cbn. now destruct (draws gauss b g).
  - destruct (gauss g) as [x g1]. rewrite IH.
    destruct (draws gauss a g1) as [xs g2]. cbn [fst snd].
    destruct (draws gauss b g2) as [ys g3]. reflexivity.
Qed.

(** The loop of cell [4] hands the generator's stream to the series one
    segment after the other. *)
Lemma generate_for_stream (l : list Z) (s : Kernel RandomState) :
  0 <= T s -> NoDup l ->
  (forall i, In i l -> ~ In (label i) (map fst (df s))) ->
  exists s', for_ l (generate_body gauss) s = Ok tt s' /\
    List.concat (map snd (df s')) =
      List.concat (map snd (df s))
      ++ fst (draws gauss (List.length l * Z.to_nat (T s)) (np_random s)) /\
    np_random s' =
      snd (draws gauss (List.length l * Z.to_nat (T s)) (np_random s)).
Proof.
  revert s. induction l as [|i l IH]; intros s HT Hnd Hfresh.
  - exists s. cbn. unfold ret. now rewrite List.app_nil_r.
  - cbn [for_]. unfold bind. rewrite generate_body_eq.
    replace (T s <? 0) with false by (symmetry; apply Z.ltb_ge; lia).
    cbv zeta.
    set (r := draws gauss (Z.to_nat (T s)) (np_random s)).
    set (s1 := set_df _ _).
    assert (Hdf : df s1 = df s ++ [(label i, fst r)]).
    { subst s1. cbn. apply setitem_fresh. apply Hfresh. now left. }
    inversion Hnd as [|? ? Hi Hl]; subst.
    destruct (IH s1) as (s' & E & Hdata & Hg).
    + exact HT.
    + assumption.
    + intros k Hk. rewrite Hdf, map_app, in_app_iff. cbn [map fst In].
      intros [Hin|[Heq|[]]].
      * apply (Hfresh k); [now right|assumption].
      * apply label_inj in Heq. congruence.
    + exists s'. split; [exact E|].
      cbn [List.length Nat.mul]. rewrite draws_app. fold r. cbn [fst snd].
      change (T s1) with (T s) in Hdata, Hg.
      change (np_random s1) with (snd r) in Hdata, Hg.
      rewrite Hdata, Hg, Hdf, map_app, List.concat_app. cbn [map snd List.concat].
      now rewrite List.app_nil_r, <- List.app_assoc.
Qed.

(** The scan stops with an IndexError at the first pair that misses a
    column, in the state the pairs before it have left. *)
Lemma run_pairs_raise (l1 l2 : list (Z * Z)) (p : Z * Z) (s : Kernel RandomState) :
  (forall q, In q l1 -> present (df s) q = true) ->
  present (df s) p = false ->
  run_pairs spearmanr (l1 ++ p :: l2) s = Raise IndexError (scanned spearmanr l1 s).
Proof.
  intros H1 Hp. unfold run_pairs. rewrite for_app. unfold bind.
  change (for_ l1 _) with (@run_pairs RandomState spearmanr l1).
  rewrite run_pairs_ok by assumption. cbn [for_]. unfold bind.
  destruct p as [i j]. cbn [fst snd]. rewrite scan_body_eq.
  destruct (scanned_frame spearmanr l1 s) as (_ & _ & -> & _).
  now rewrite Hp.
Qed.

Lemma pairs_split (n m : Z) :
  2 <= n -> 1 <= m < n ->
  exists rest,
    pairs n = map (pair 0) (range 1 m) ++ (0, m) :: rest.
Proof.
  intros Hn Hm. unfold pairs. rewrite (range_cons 0 n) by lia.
  cbn [flat_map]. change (0 + 1) with 1.
  rewrite (range_app 1 m n) by lia. rewrite (range_cons m n) by lia.
  rewrite map_app. cbn [map]. rewrite <- List.app_assoc. cbn [app].
  eexists. reflexivity.
Qed.

End MoreFacts.

Section MoreProperties.

Context {RandomState : Type}.
Variable gauss : RandomState -> float * RandomState.
Variable spearmanr : Series -> Series -> float * float.

(** X1.  Cell [4], the frame it builds.  Whatever the kernel held before, with
    a size numpy accepts the cell leaves a frame whose columns are labelled
    X0, X1, ..., X(N-1) in this order, no label twice, each column of
    length [T]: no series overwrites another, and nothing of an earlier
    frame survives. *)
Theorem generate_frame_shape (n t : Z) (s : Kernel RandomState) :
  0 <= t ->
  exists s', generate gauss n t s = Ok tt s' /\
    map fst (df s') = map label (range 0 n) /\
    NoDup (map fst (df s')) /\
    Forall (fun col => List.length (snd col) = Z.to_nat t) (df s') /\
    N s' = n /\ T s' = t.
Proof.
  intros Ht. unfold generate, generate_loop, bind, modify, get.
  set (s0 := set_T t (set_N n (set_df empty_frame s))).
  destruct (generate_for_ok gauss (range 0 (N s0)) s0) as (s' & E & Hnames & Hlen & Hsame).
  - exact Ht.
  - apply range_NoDup.
  - intros i _ [].
  - exists s'. split; [exact E|].
    destruct Hsame as (HN & HT & _). cbn in HN, HT, Hnames.
    rewrite Hnames. repeat split; try assumption.
    + apply NoDup_map_NoDup_ForallPairs; [|apply range_NoDup].
      intros a b _ _. apply label_inj.
    + apply Hlen. constructor.
Qed.

(** X2.  Cell [4], the stream it consumes.  The series are consecutive segments
    of the generator's stream: laid end to end they are its first N * T
    draws, and the generator is left where those draws end. *)
Theorem generate_stream (n t : Z) (s : Kernel RandomState) :
  0 <= t ->
  exists s', generate gauss n t s = Ok tt s' /\
    List.concat (map snd (df s')) =
      fst (draws gauss (Z.to_nat n * Z.to_nat t) (np_random s)) /\
    np_random s' = snd (draws gauss (Z.to_nat n * Z.to_nat t) (np_random s)).
Proof.
  intros Ht. unfold generate, generate_loop, bind, modify, get.
  set (s0 := set_T t (set_N n (set_df empty_frame s))).
  destruct (generate_for_stream gauss (range 0 (N s0)) s0) as (s' & E & Hdata & Hg).
  - exact Ht.
  - apply range_NoDup.
  - intros i _ [].
  - exists s'. split; [exact E|].
    rewrite length_range in Hdata, Hg. cbn in Hdata, Hg.
    rewrite Z.sub_0_r in Hdata, Hg. now split.
Qed.

(** X3.  Cells [4] and [7] with a negative [T] and at least one series asked
    for: numpy's ValueError at the first draw.  By then the frame has been
    replaced by an empty one and [N] and [T] rebound; the cutoff, the list
    of pairs, the generator and the trace are as they were, and the scan
    has not started. *)
Theorem experiment_negative_size (n t : Z) (c : float) (s : Kernel RandomState) :
  t < 0 -> 1 <= n ->
  experiment gauss spearmanr n t c s
  = Raise ValueError
      (mkKernel n t empty_frame (cutoff s) (significant_pairs s)
                (np_random s) (trace s)).
Proof.
  intros Ht Hn. unfold experiment, bind.
  now rewrite (generate_raise gauss n t s Ht Hn).
Qed.

(** X4.  Cell [7] run twice.  The second run finds the same pairs as the first
    and not twice as many: the cell empties the list before it scans.  The
    tests themselves are run again. *)
Theorem scan_rerun (c : float) (s : Kernel RandomState) :
  0 <= N s <= ncols (df s) ->
  exists s1 s2, scan spearmanr c s = Ok tt s1 /\ scan spearmanr c s1 = Ok tt s2 /\
    significant_pairs s2 = significant_pairs s1 /\
    df s2 = df s /\ cutoff s2 = c /\
    tests_run (trace s2) - tests_run (trace s) = 2 * (N s * (N s - 1) / 2).
Proof.
  intros [H0 H].
  pose (s1 := scanned spearmanr (pairs (N s)) (scan_start c s)).
  assert (H1 : N s1 <= ncols (df s1)) by exact H.
  exists s1, (scanned spearmanr (pairs (N s1)) (scan_start c s1)).
  split; [now apply scan_ok|]. split; [now apply scan_ok|].
  destruct (scanned_all spearmanr c s H) as (Hsp & Ht & _).
  destruct (scanned_all spearmanr c s1 H1) as (Hsp1 & Ht1 & _).
  cbv zeta in Hsp, Ht, Hsp1, Ht1.
  change (scanned spearmanr (pairs (N s)) (scan_start c s)) with s1 in Hsp, Ht.
  change (N s1) with (N s) in Ht1, Hsp1 |- *. change (df s1) with (df s) in Hsp1.
  rewrite Hsp1, Hsp. repeat split.
  rewrite pairs_length in Ht, Ht1 by lia. lia.
Qed.

(** On a frame of m < N columns the scan raises at the pair (0, m), after
    the pairs (0, 1), ..., (0, m-1). *)
Lemma scan_short_frame (c : float) (s : Kernel RandomState) :
  2 <= N s -> ncols (df s) < N s ->
  scan spearmanr c s
  = Raise IndexError
      (scanned spearmanr (map (pair 0) (range 1 (ncols (df s)))) (scan_start c s)) /\
  (forall q, In q (map (pair 0) (range 1 (ncols (df s)))) ->
             present (df s) q = true).
Proof.
  intros H2 Hm. set (m := Z.max 1 (ncols (df s))).
  assert (Hcols : 0 <= ncols (df s)) by (unfold ncols; lia).
  destruct (pairs_split (N s) m H2 ltac:(lia)) as (rest & Hsplit).
  assert (Hpre : forall q, In q (map (pair 0) (range 1 m)) ->
                           present (df s) q = true).
  { intros q Hq. apply in_map_iff in Hq. destruct Hq as (j & <- & Hj).
    apply In_range in Hj. unfold present. cbn [fst snd].
    destruct (iloc_col_present (df s) 0 ltac:(lia)) as (X0 & ->).
    destruct (iloc_col_present (df s) j ltac:(lia)) as (Xj & ->). reflexivity. }
  assert (Hmiss : present (df s) (0, m) = false).
  { unfold present. cbn [fst snd].
    rewrite (iloc_col_absent (df s) m) by lia.
    now destruct (iloc_col (df s) 0). }
  assert (Hrange : range 1 m = range 1 (ncols (df s))).
  { destruct (Z_le_gt_dec 1 (ncols (df s))).
    - now replace m with (ncols (df s)) by lia.
    - now rewrite !range_nil by lia. }
  rewrite <- Hrange. split; [|exact Hpre].
  unfold scan, bind, modify. rewrite scan_loop_eq.
  cbn [N set_significant_pairs set_cutoff]. rewrite Hsplit.
  apply run_pairs_raise; assumption.
Qed.

(** X5.  Cell [7] on a frame with too few columns (N raised without running
    cell [4] again): an IndexError at the first missing column, which is
    column m of the pair (0, m) when the frame has m >= 1 columns, and
    column 0 of the pair (0, 1) when it has none.  The first series has by
    then been tested against the others there are, and the significant
    ones among these pairs are in the list; the frame is untouched. *)
Theorem scan_too_few_columns (c : float) (s : Kernel RandomState) :
  2 <= N s -> ncols (df s) < N s ->
  exists s', scan spearmanr c s = Raise IndexError s' /\
    significant_pairs s' =
      filter (below spearmanr (df s) c) (map (pair 0) (range 1 (ncols (df s)))) /\
    tests_run (trace s') - tests_run (trace s) = Z.max 0 (ncols (df s) - 1) /\
    df s' = df s /\ cutoff s' = c.
Proof.
  intros H2 Hm. destruct (scan_short_frame c s H2 Hm) as [E Hpre].
  eexists. split; [exact E|].
  destruct (tests_of_present (df s) _ Hpre) as [Ht _].
  destruct s as [n t d c0 sp g tr]. cbn in *.
  rewrite tests_run_app, Ht, length_map, length_range.
  repeat split. lia.
Qed.

(** X6.  Cell [7] ends normally exactly when there is no pair to test or the
    frame has a column for each of the [N] indices. *)
Theorem scan_returns_iff (c : float) (s : Kernel RandomState) :
  (exists s', scan spearmanr c s = Ok tt s') <->
  N s <= 1 \/ N s <= ncols (df s).
Proof.
  split.
  - intros (s' & E).
    destruct (Z_le_gt_dec (N s) 1) as [H1|H1]; [now left|].
    destruct (Z_le_gt_dec (N s) (ncols (df s))) as [Hc|Hc]; [now right|].
    destruct (scan_short_frame c s ltac:(lia) ltac:(lia)) as (E' & _).
    rewrite E in E'. discriminate.
  - intros [H|H].
    + eexists. unfold scan, bind, modify. rewrite scan_loop_eq.
      apply run_pairs_ok. cbn [N set_significant_pairs set_cutoff].
      rewrite pairs_nil by lia. intros p [].
    + eexists. now apply scan_ok.
Qed.

(** X7.  However cell [7] ends, the count of cell [11] is at most the number of
    pairs, N(N-1)/2 (none when N is not positive). *)
Theorem scan_count_bound (c : float) (s : Kernel RandomState) :
  0 <= cell_count (final (scan spearmanr c s))
    <= Z.max 0 (N s) * (Z.max 0 (N s) - 1) / 2.
Proof.
  destruct (scan_final spearmanr c s) as (l1 & l2 & E & ->).
  assert (Hsp : significant_pairs (scanned spearmanr l1 (scan_start c s))
                = filter (below spearmanr (df s) c) l1)
    by (destruct s; reflexivity).
  unfold cell_count. rewrite Hsp.
  pose proof (filter_length (below spearmanr (df s) c) l1) as Hf.
  assert (Hl : (List.length l1 <= List.length (pairs (N s)))%nat)
    by (rewrite E, length_app; lia).
  assert (Hp : Z.of_nat (List.length (pairs (N s)))
               = Z.max 0 (N s) * (Z.max 0 (N s) - 1) / 2).
  { destruct (Z_le_gt_dec (N s) 0).
    - rewrite pairs_nil by lia. now replace (Z.max 0 (N s)) with 0 by lia.
    - rewrite pairs_length by lia. now replace (Z.max 0 (N s)) with (N s) by lia. }
  lia.
Qed.

(** X8.  Cell [7] under two cutoffs.  On the same frame, every pair significant
    at a cutoff is significant at any cutoff at least as large, so the
    count can only grow with the cutoff. *)
Theorem scan_cutoff_monotone (c1 c2 : float) (s : Kernel RandomState) :
  (c1 <=? c2)%float = true -> N s <= ncols (df s) ->
  exists s1 s2, scan spearmanr c1 s = Ok tt s1 /\ scan spearmanr c2 s = Ok tt s2 /\
    incl (significant_pairs s1) (significant_pairs s2) /\
    cell_count s1 <= cell_count s2.
Proof.
  intros Hle H. eexists. eexists.
  split; [now apply scan_ok|]. split; [now apply scan_ok|].
  destruct (scanned_all spearmanr c1 s H) as (Hsp1 & _).
  destruct (scanned_all spearmanr c2 s H) as (Hsp2 & _).
  cbv zeta in *. unfold cell_count. rewrite Hsp1, Hsp2.
  destruct (filter_length_le (below spearmanr (df s) c1)
              (below spearmanr (df s) c2) (pairs (N s))) as [Hlen Hincl].
  - intros p _. unfold below. destruct (pvalue_of spearmanr (df s) p); [|discriminate].
    now apply below_le.
  - split; [exact Hincl|lia].
Qed.

(** X9.  The two loops of cell [7] test every unordered pair of the [N] series
    once: the tests they add to the trace are those of [pairs N] in order,
    no pair comes twice, of two distinct indices exactly one orientation
    is tested, and no series is tested against itself. *)
Theorem scan_tests_each_pair_once (s : Kernel RandomState) :
  N s <= ncols (df s) ->
  exists s', scan_loop spearmanr s = Ok tt s' /\
    trace s' = trace s ++ flat_map (test_of (df s)) (pairs (N s)) /\
    NoDup (pairs (N s)) /\
    (forall i j, 0 <= i < N s -> 0 <= j < N s -> i <> j ->
       (In (i, j) (pairs (N s)) <-> ~ In (j, i) (pairs (N s)))) /\
    (forall i, ~ In (i, i) (pairs (N s))).
Proof.
  intros H. eexists. split.
  - rewrite scan_loop_eq. apply run_pairs_ok.
    intros p Hp. now apply pairs_present with (n := N s).
  - split; [destruct s; reflexivity|]. split; [apply In_pairs_NoDup|]. split.
    + intros i j Hi Hj Hne. rewrite !In_pairs. lia.
    + intros i. rewrite In_pairs. lia.
Qed.

(** X10.  Cells [4] and [7] under two cutoffs.  From the same kernel the two
    runs end the same way with the same frame, the same tests on record
    and the same generator state: the cutoff selects among the p-values
    and has no part in the data or the tests. *)
Theorem experiment_data_ignores_cutoff (n t : Z) (c1 c2 : float)
    (s : Kernel RandomState) :
  same_outcome
    (fun a b => df a = df b /\ trace a = trace b /\ np_random a = np_random b /\
                N a = N b /\ T a = T b)
    (experiment gauss spearmanr n t c1 s) (experiment gauss spearmanr n t c2 s).
Proof.
  unfold experiment, bind.
  destruct (Z_le_gt_dec 0 t) as [Ht|Ht]; [|destruct (Z_le_gt_dec n 0) as [Hn|Hn]].
  3: { rewrite (generate_raise gauss n t s) by lia. cbn. repeat split. }
  all: destruct (generate_total gauss n t s ltac:(lia))
         as (s1 & -> & HN & HT & Hcols & _);
       assert (Hle : N s1 <= ncols (df s1)) by lia;
       rewrite !(scan_ok spearmanr _ s1 Hle); cbn [same_outcome];
       destruct s1; cbn; repeat split.
Qed.

(** X11.  The notebook as written, cells [4] and [7] with N = 20, T = 100 and the
    cutoff 0.05: from any kernel, with any generator and any primitive, it
    ends normally with 20 series of length 100 and 190 tests run; the count
    of cell [11] is at most 190 and the value of cell [9] is 9.5. *)
Theorem notebook_runs (s : Kernel RandomState) :
  exists s', notebook gauss spearmanr s = Ok tt s' /\
    N s' = 20 /\ T s' = 100 /\ ncols (df s') = 20 /\
    Forall (fun col => List.length (snd col) = 100%nat) (df s') /\
    cutoff s' = 0.05%float /\
    tests_run (trace s') - tests_run (trace s) = 190 /\
    0 <= cell_count s' <= 190 /\
    cell_expected s' = 9.5%float.
Proof.
  unfold notebook, cell_generate, cell_scan, bind.
  destruct (generate_total gauss 20 100 s ltac:(lia))
    as (s1 & -> & HN & HT & Hcols & Hlen & _ & _ & Htr).
  assert (Hle : N s1 <= ncols (df s1)) by lia.
  rewrite (scan_ok spearmanr _ s1 Hle). eexists. split; [reflexivity|].
  destruct (scanned_all spearmanr 0.05%float s1 Hle) as (Hsp & Ht & _).
  cbv zeta in Hsp, Ht.
  destruct (scanned_frame spearmanr (pairs (N s1)) (scan_start 0.05%float s1))
    as (HN' & HT' & Hdf & Hc & _).
  unfold cell_count, cell_expected. rewrite HN', HT', Hdf, Hc, Hsp.
  cbn [N T df cutoff scan_start set_significant_pairs set_cutoff].
  rewrite HN, HT, Hcols. rewrite HN in Ht. rewrite <- Htr, Ht.
  pose proof (filter_length (below spearmanr (df s1) 0.05%float) (pairs 20)) as Hf.
  change (List.length (pairs 20)) with 190%nat in Hf |- *.
  repeat split; try reflexivity; try assumption; lia.
Qed.

End MoreProperties.

(** * The further properties on the stand-in libraries *)

Lemma generate_frame_shape_witness :
  0 <= 1 /\
  exists s', generate Sample.gauss 3 1 Sample.loaded = Ok tt s' /\
             map fst (df s') = ["X0"; "X1"; "X2"]%string.
Proof.
  assert (H : 0 <= 1) by lia. split; [exact H|].
  destruct (generate_frame_shape Sample.gauss 3 1 Sample.loaded H)
    as (s' & E & Hnames & _).
  exists s'. split; [exact E|]. rewrite Hnames. reflexivity.
Defined.

Lemma generate_stream_witness :
  0 <= 2 /\
  exists s', generate Sample.gauss 2 2 Sample.fresh = Ok tt s' /\
             List.concat (map snd (df s')) = [0; 1; 2; 3]%float /\
             np_random s' = 4.
Proof.
  assert (H : 0 <= 2) by lia. split; [exact H|].
  destruct (generate_stream Sample.gauss 2 2 Sample.fresh H) as (s' & E & Hd & Hg).
  exists s'. split; [exact E|]. rewrite Hd, Hg. split; vm_compute; reflexivity.
Defined.

Lemma experiment_negative_size_witness :
  (-1 < 0 /\ 1 <= 2) /\
  experiment Sample.gauss Sample.spearmanr 2 (-1) 0.05%float Sample.loaded
  = Raise ValueError (mkKernel 2 (-1) [] 0.05%float [] 3 []).
Proof.
  assert (Ht : -1 < 0) by lia. assert (Hn : 1 <= 2) by lia.
  split; [split; assumption|].
  exact (experiment_negative_size Sample.gauss Sample.spearmanr 2 (-1)
           0.05%float Sample.loaded Ht Hn).
Defined.

Lemma sample_columns_nonneg : 0 <= N Sample.loaded <= ncols (df Sample.loaded).
Proof. split; vm_compute; discriminate. Defined.

Lemma scan_rerun_witness :
  0 <= N Sample.loaded <= ncols (df Sample.loaded) /\
  exists s1 s2,
    scan Sample.spearmanr 0.05%float Sample.loaded = Ok tt s1 /\
    scan Sample.spearmanr 0.05%float s1 = Ok tt s2 /\
    significant_pairs s2 = significant_pairs s1 /\ tests_run (trace s2) = 6.
Proof.
  split; [exact sample_columns_nonneg|].
  destruct (scan_rerun Sample.spearmanr 0.05%float Sample.loaded
              sample_columns_nonneg) as (s1 & s2 & E1 & E2 & Hsp & _ & _ & Ht).
  exists s1, s2. repeat split; [exact E1|exact E2|exact Hsp|].
  change (tests_run (trace Sample.loaded)) with 0 in Ht.
  rewrite Z.sub_0_r in Ht. rewrite Ht. reflexivity.
Defined.

Lemma scan_too_few_columns_witness :
  (2 <= N (set_N 5 Sample.loaded) /\
   ncols (df (set_N 5 Sample.loaded)) < N (set_N 5 Sample.loaded)) /\
  exists s', scan Sample.spearmanr 0.05%float (set_N 5 Sample.loaded)
             = Raise IndexError s' /\
             significant_pairs s' = [(0, 2)] /\ tests_run (trace s') = 2.
Proof.
  assert (H2 : 2 <= N (set_N 5 Sample.loaded)) by (vm_compute; discriminate).
  assert (Hm : ncols (df (set_N 5 Sample.loaded)) < N (set_N 5 Sample.loaded))
    by (vm_compute; reflexivity).
  split; [split; assumption|].
  destruct (scan_too_few_columns Sample.spearmanr 0.05%float
              (set_N 5 Sample.loaded) H2 Hm) as (s' & E & Hsp & Ht & _).
  exists s'. split; [exact E|]. split.
  - rewrite Hsp. vm_compute. reflexivity.
  - change (tests_run (trace (set_N 5 Sample.loaded))) with 0 in Ht.
    rewrite Z.sub_0_r in Ht. rewrite Ht. reflexivity.
Defined.

Lemma scan_cutoff_monotone_witness :
  (0.015 <=? 0.05)%float = true /\
  exists s1 s2,
    scan Sample.spearmanr 0.015%float Sample.loaded = Ok tt s1 /\
    scan Sample.spearmanr 0.05%float Sample.loaded = Ok tt s2 /\
    incl (significant_pairs s1) (significant_pairs s2) /\
    cell_count s1 <= cell_count s2.
Proof.
  assert (Hle : (0.015 <=? 0.05)%float = true) by (vm_compute; reflexivity).
  split; [exact Hle|].
  exact (scan_cutoff_monotone Sample.spearmanr 0.015%float 0.05%float
           Sample.loaded Hle sample_columns).
Defined.

Lemma scan_tests_each_pair_once_witness :
  N Sample.loaded <= ncols (df Sample.loaded) /\
  exists s', scan_loop Sample.spearmanr Sample.loaded = Ok tt s' /\
    trace s' = [Spearmanr [0%float] [1%float]; Spearmanr [0%float] [2%float];
                Spearmanr [1%float] [2%float]].
Proof.
  split; [exact sample_columns|].
  destruct (scan_tests_each_pair_once Sample.spearmanr Sample.loaded
              sample_columns) as (s' & E & Htr & _).
  exists s'. split; [exact E|]. rewrite Htr. vm_compute. reflexivity.
Defined.
